(** * Points and lines in the plane (chapter 10.06, [line.h])

    The header computes on C++ [double].  The scalar type is modelled
    bit-exactly: a [double] is a [spec_float] of the IEEE-754 binary64
    format (53 bits of precision, exponent bound 1024), and [+], [-], [*],
    [/], [std::sqrt], [std::abs], [<] and [>] are the correctly rounded
    (round-to-nearest-even) operations of [SpecFloat], that is, strict
    binary64 evaluation with no fused multiply-add and no extended
    precision.  Every definition below is executable, so the concrete
    scenarios are settled by evaluation; the quantified properties are
    proved for all doubles, through an integer reading of the rounding
    functions. *)

From Stdlib Require Import ZArith Bool Lia Zpower.
From Stdlib Require Import Floats.SpecFloat.

Local Open Scope Z_scope.

(** ** The scalar type *)

Definition prec : Z := 53.
Definition emax : Z := 1024.

Definition double : Type := spec_float.

Definition dadd : double -> double -> double := SFadd prec emax.
Definition dsub : double -> double -> double := SFsub prec emax.
Definition dmul : double -> double -> double := SFmul prec emax.
Definition ddiv : double -> double -> double := SFdiv prec emax.
Definition dsqrt : double -> double := SFsqrt prec emax.
Definition fabs : double -> double := SFabs.

(** [a < b] and [a > b] on doubles; both are false when an operand is NaN. *)
Definition dlt (a b : double) : bool := SFltb a b.
Definition dgt (a b : double) : bool :=
  match SFcompare a b with
  | Some Gt => true
  | _ => false
  end.
(** [a <= b], used only to state bounds. *)
Definition dle (a b : double) : bool := SFleb a b.

(** An integer literal; exact whenever [|z| <= 2^53]. *)
Definition of_Z (z : Z) : double := binary_normalize prec emax z 0 false.

(** The decimal literal [n / d] for integers [n], [d] below [2^53]: both
    are exact doubles and the division is correctly rounded, so the result
    is the double nearest to the decimal value, which is what the compiler
    stores for the literal. *)
Definition decimal (n d : Z) : double := ddiv (of_Z n) (of_Z d).

(** [std::numeric_limits<double>::max()]. *)
Definition DBL_MAX : double := SFmax_float prec emax.

(** A double that is neither an infinity nor NaN. *)
Definition is_finite (a : double) : bool :=
  match a with
  | S754_zero _ | S754_finite _ _ _ => true
  | S754_infinity _ | S754_nan => false
  end.

(** The doubles a C++ program can hold: [spec_float]s in canonical form. *)
Definition is_double (a : double) : bool := valid_binary prec emax a.

(** ** [line.h] *)

(** [static const double epsilon = 1.e-10;] *)
Definition epsilon : double := decimal 1 10000000000.

Record point : Type := mkpoint { x : double; y : double }.

(** [operator-(const point&, const point&)] *)
Definition point_sub (P Q : point) : point :=
  mkpoint (dsub (x P) (x Q)) (dsub (y P) (y Q)).

(** [operator*(const point&, const point&)]: the dot product. *)
Definition dot (P Q : point) : double :=
  dadd (dmul (x P) (x Q)) (dmul (y P) (y Q)).

Definition norm (P : point) : double := dsqrt (dot P P).

(** [operator==(const point&, const point&)] *)
Definition point_eq (P Q : point) : bool := dlt (norm (point_sub Q P)) epsilon.

(** [operator!=(const point&, const point&)] *)
Definition point_neq (P Q : point) : bool := negb (point_eq P Q).

Record line : Type := mkline { A : point; B : point }.

(** What a call that may hit [assert] does: it returns, or the process
    aborts.  There is no third, recoverable, outcome. *)
Inductive outcome (T : Type) : Type :=
| Returned (v : T)
| Aborted.
Arguments Returned {T} v.
Arguments Aborted {T}.

(** [line::line]: stores both points and asserts [A != B]. *)
Definition line_ctor (P Q : point) : outcome line :=
  if point_neq P Q then Returned (mkline P Q) else Aborted.

Definition one : double := of_Z 1.

(** [line::sine] *)
Definition sine (l : line) : double :=
  if dlt (fabs (dsub (x (A l)) (x (B l)))) epsilon then one
  else if dgt (x (B l)) (x (A l)) then
    ddiv (dsub (y (B l)) (y (A l))) (norm (point_sub (B l) (A l)))
  else
    ddiv (dsub (y (A l)) (y (B l))) (norm (point_sub (B l) (A l))).

(** [line::x_intercept] *)
Definition x_intercept (l : line) : double :=
  if dlt (fabs (dsub (y (A l)) (y (B l)))) epsilon then DBL_MAX
  else
    let m := ddiv (dsub (x (B l)) (x (A l))) (dsub (y (B l)) (y (A l))) in
    dsub (x (A l)) (dmul m (y (A l))).

(** [line::y_intercept] *)
Definition y_intercept (l : line) : double :=
  if dlt (fabs (dsub (x (A l)) (x (B l)))) epsilon then DBL_MAX
  else
    let m := ddiv (dsub (y (B l)) (y (A l))) (dsub (x (B l)) (x (A l))) in
    dsub (y (A l)) (dmul m (x (A l))).

(** The scaled collinearity test at the end of [line::crosses]. *)
Definition scaled_test (l : line) (C : point) : bool :=
  let bc := norm (point_sub C (B l)) in
  let ab := norm (point_sub (B l) (A l)) in
  dlt (fabs (dsub (fabs (dot (point_sub (B l) (A l)) (point_sub C (B l))))
                  (dmul ab bc)))
      (dmul (dmul epsilon ab) bc).

(** [line::crosses] *)
Definition crosses (l : line) (C : point) : bool :=
  if point_eq (A l) C || point_eq (B l) C then true
  else scaled_test l C.

(** [operator==(const line&, const line&)] *)
Definition line_eq (r s : line) : bool :=
  crosses r (A s) && crosses r (B s).

(** [operator!=(const line&, const line&)] *)
Definition line_neq (r s : line) : bool := negb (line_eq r s).

(** A point both of whose coordinates are finite doubles. *)
Definition finite_point (P : point) : bool :=
  is_finite (x P) && is_finite (y P) && is_double (x P) && is_double (y P).

(** The point with integer coordinates [(a, b)]. *)
Definition ipoint (a b : Z) : point := mkpoint (of_Z a) (of_Z b).

(** ** The inputs of the scenarios *)

(** S1: the horizontal line through (0, 5) and (3, 5). *)
Definition S1_line : line := mkline (ipoint 0 5) (ipoint 3 5).
(** The point (-7, 5.0000001). *)
Definition S1_near : point := mkpoint (of_Z (-7)) (decimal 50000001 10000000).

(** S6: the points (3, 4) and (3, 4 + 1e-12). *)
Definition S6_P : point := ipoint 3 4.
Definition S6_Q : point := mkpoint (of_Z 3) (dadd (of_Z 4) (decimal 1 1000000000000)).

(** A long horizontal line and a short vertical one through the origin:
    (0,0)-(1,0) and (0,0)-(0, 2e-10). *)
Definition long_r : line := mkline (ipoint 0 0) (ipoint 1 0).
Definition short_s : line := mkline (ipoint 0 0) (mkpoint (of_Z 0) (decimal 2 10000000000)).

(** A diagonal line far from the origin, through (1000000, 1) and
    (1000001, 2). *)
Definition far_diagonal : line := mkline (ipoint 1000000 1) (ipoint 1000001 2).

(** Three points on the x axis, 6e-11 apart. *)
Definition T_P : point := ipoint 0 0.
Definition T_Q : point := mkpoint (decimal 6 100000000000) (of_Z 0).
Definition T_R : point := mkpoint (decimal 12 100000000000) (of_Z 0).

(** The diagonal line through (0, 0) and (8e-11, 8e-11). *)
Definition tiny_B : point := mkpoint (decimal 8 100000000000) (decimal 8 100000000000).
Definition tiny_line : line := mkline (ipoint 0 0) tiny_B.

(** The line through (DBL_MAX, 0) and (0, 1). *)
Definition far_line : line := mkline (mkpoint DBL_MAX (of_Z 0)) (ipoint 0 1).

(** The line through (0, 1e308) and (1, -1e308): finite points whose
    difference in [y] overflows. *)
Definition steep_line : line :=
  mkline (mkpoint (of_Z 0) (of_Z (10 ^ 308))) (mkpoint (of_Z 1) (of_Z (- 10 ^ 308))).

(** The line with the defining points exchanged. *)
Definition swap (l : line) : line := mkline (B l) (A l).

(** ** Definitions used to analyse the rounding

    [SpecFloat] rounds through a shift register with a round bit and a
    sticky bit.  The definitions below give the same results in closed
    form; the lemmas of the next part prove that they do. *)

(** The two bits below the mantissa that a [location] stands for. *)
Definition loc_code (l : location) : Z :=
  match l with
  | loc_Exact => 0
  | loc_Inexact Lt => 1
  | loc_Inexact Eq => 2
  | loc_Inexact Gt => 3
  end.

(** [M / 2^k] rounded to the nearest integer, ties to even. *)
Definition rne (M k : Z) : Z :=
  let q := M / 2 ^ k in
  match 2 * (M mod 2 ^ k) ?= 2 ^ k with
  | Lt => q
  | Eq => if Z.even q then q else q + 1
  | Gt => q + 1
  end.

(** A mantissa and an exponent as a double, overflowing to infinity. *)
Definition pack (s : bool) (m e : Z) : double :=
  match m with
  | Z0 => S754_zero s
  | Zpos p => if e <=? emax - prec then S754_finite s p e else S754_infinity s
  | Zneg _ => S754_nan
  end.

(** The exponent of the doubles of magnitude [2^(k-1) <= . < 2^k]. *)
Definition fexp64 (k : Z) : Z := Z.max (k - 53) (-1074).

(** What [binary_round_aux] computes from a located mantissa. *)
Definition round_core (s : bool) (q e : Z) (l : location) : double :=
  let n := Z.max 0 (fexp64 (Zdigits2 q + e) - e) in
  let m1 := rne (4 * q + loc_code l) (n + 2) in
  let n2 := Z.max 0 (fexp64 (Zdigits2 m1 + (e + n)) - (e + n)) in
  pack s (m1 / 2 ^ n2) (e + n + n2).

(** Doubles as integers: the rank of a non-negative double.

    A non-negative double is measured in units of [2^-2200], fine enough
    for every exact intermediate result of the operations of [line.h];
    [+infinity] sits at [2^1024]. *)

Definition base : Z := 2200.
Definition INF : Z := 2 ^ 3224.

Definition rank (a : double) : Z :=
  match a with
  | S754_zero _ => 0
  | S754_finite false m e => Zpos m * 2 ^ (e + base)
  | S754_infinity false => INF
  | _ => -1
  end.

(** A non-negative double in canonical form. *)
Definition good (a : double) : Prop :=
  match a with
  | S754_zero _ => True
  | S754_finite false m e => fexp64 (Zdigits2 (Zpos m) + e) = e /\ e <= 971
  | S754_infinity false => True
  | _ => False
  end.

(** The correctly rounded value of a positive quantity [V] (in units of
    [2^-2200]). *)
Definition Rz (V : Z) : Z :=
  let t := Z.max (Zdigits2 V - 53) 1126 in
  rne V t * 2 ^ t.

(** The exponent of the square root of [m * 2^e]. *)
Definition sqrt_exp (m e : Z) : Z := (Zdigits2 m + e + 1) / 2 - 53.

(** [R] is the integer nearest to the square root of [n]. *)
Definition nearest_sqrt (n R : Z) : Prop := R * R - R + 1 <= n <= R * R + R.

(** A double whose magnitude is at most 1. *)
Definition abs_le_one (r : double) : Prop :=
  match r with
  | S754_zero _ => True
  | S754_finite _ m e => e < -52 \/ (e = -52 /\ Zpos m <= 2 ^ 52)
  | _ => False
  end.

(** ** The literals

    The bit patterns of the literals, as the hardware stores them:
    [1e-10] is [0x3DDB7CDFD9D7BDBB], the largest finite double is
    [(2^53 - 1) * 2^971]. *)

Example literal_bits :
  epsilon = S754_finite false 7737125245533627 (-86) /\
  one = S754_finite false 4503599627370496 (-52) /\
  DBL_MAX = S754_finite false 9007199254740991 971 /\
  decimal 50000001 10000000 = S754_finite false 5629499646803111 (-50) /\
  decimal 8 100000000000 = S754_finite false 6189700196426901 (-86) /\
  of_Z (10 ^ 308) = S754_finite false 5010420900022432 971.
Proof. vm_compute. repeat split; reflexivity. Qed.

(** ** Signs, subtraction and comparison *)

Lemma binary_round_aux_opp p em s m e l :
  binary_round_aux p em (negb s) m e l = SFopp (binary_round_aux p em s m e l).
Proof.
  unfold binary_round_aux.
  destruct (shr_fexp p em m e l) as [mrs' e'].
  destruct (shr_fexp p em _ e' loc_Exact) as [mrs'' e''].
  destruct (shr_m mrs''); simpl; try reflexivity.
  destruct (e'' <=? em - p); reflexivity.
Qed.

Lemma binary_round_opp p em s m e :
  binary_round p em (negb s) m e = SFopp (binary_round p em s m e).
Proof.
  unfold binary_round.
  destruct (shl_align m e _) as [mz ez].
  apply binary_round_aux_opp.
Qed.

Lemma binary_normalize_opp p em m e :
  m <> 0 ->
  binary_normalize p em (- m) e false = SFopp (binary_normalize p em m e false).
Proof.
  destruct m as [|q|q]; intros H; [congruence| |]; simpl.
  - apply (binary_round_opp p em false).
  - rewrite <- (binary_round_opp p em true). reflexivity.
Qed.

(** Swapping the operands of a subtraction negates the result, except
    that [a - a] is [+0] both ways. *)
Lemma dsub_swap a b :
  dsub a b = SFopp (dsub b a) \/
  (dsub a b = S754_zero false /\ dsub b a = S754_zero false).
Proof.
  unfold dsub.
  destruct a as [sa|sa| |sa ma ea], b as [sb|sb| |sb mb eb]; simpl;
    try (destruct sa, sb; simpl; auto; fail);
    try (destruct sa; simpl; auto; fail);
    try (destruct sb; simpl; auto; fail); auto.
  rewrite (Z.min_comm eb ea).
    set (X := cond_Zopp sa _). set (Y := cond_Zopp sb _).
  destruct (Z.eq_dec (X - Y) 0) as [E|E].
    + right. replace (Y - X) with 0 by lia. rewrite E. auto.
    + left. replace (X - Y) with (- (Y - X)) by lia.
      apply binary_normalize_opp. lia.
Qed.

Lemma dmul_opp_opp a : dmul (SFopp a) (SFopp a) = dmul a a.
Proof. destruct a as [s|s| |s m e]; simpl; try reflexivity; destruct s; reflexivity. Qed.

Lemma fabs_opp a : fabs (SFopp a) = fabs a.
Proof. destruct a; reflexivity. Qed.

Lemma dsub_swap_sq a b :
  dmul (dsub a b) (dsub a b) = dmul (dsub b a) (dsub b a).
Proof.
  destruct (dsub_swap a b) as [H|[H1 H2]].
  - rewrite H. apply dmul_opp_opp.
  - rewrite H1, H2. reflexivity.
Qed.

Lemma dsub_swap_abs a b : fabs (dsub a b) = fabs (dsub b a).
Proof.
  destruct (dsub_swap a b) as [H|[H1 H2]].
  - rewrite H. apply fabs_opp.
  - rewrite H1, H2. reflexivity.
Qed.

Lemma norm_sub_swap P Q : norm (point_sub P Q) = norm (point_sub Q P).
Proof.
  unfold norm, dot, point_sub; simpl.
  rewrite (dsub_swap_sq (x P) (x Q)), (dsub_swap_sq (y P) (y Q)). reflexivity.
Qed.

Lemma point_eq_sym P Q : point_eq P Q = point_eq Q P.
Proof. unfold point_eq. rewrite norm_sub_swap. reflexivity. Qed.

Lemma dsub_diag a : is_finite a = true -> dsub a a = S754_zero false.
Proof.
  destruct a as [s|s| |s m e]; simpl; try discriminate; intros _.
  - destruct s; reflexivity.
  - unfold dsub; simpl. rewrite Z.sub_diag. reflexivity.
Qed.

Lemma point_eq_refl P :
  is_finite (x P) = true -> is_finite (y P) = true -> point_eq P P = true.
Proof.
  intros Hx Hy. unfold point_eq, norm, dot, point_sub; simpl.
  rewrite (dsub_diag _ Hx), (dsub_diag _ Hy). vm_compute. reflexivity.
Qed.

Lemma SFcompare_antisym a b c :
  SFcompare a b = Some c -> SFcompare b a = Some (CompOpp c).
Proof.
  destruct a as [sa|sa| |sa ma ea], b as [sb|sb| |sb mb eb]; simpl;
    try discriminate;
    try (intros H; injection H as <-; try destruct sa; try destruct sb; reflexivity).
  intros H; injection H as <-.
  destruct sa, sb; try reflexivity;
    rewrite (Z.compare_antisym ea eb);
    destruct (ea ?= eb); simpl; try reflexivity;
    replace (Pos.compare_cont Eq mb ma) with (CompOpp (Pos.compare_cont Eq ma mb))
      by (rewrite Pos.compare_cont_antisym; reflexivity);
    try rewrite CompOpp_involutive; reflexivity.
Qed.

Lemma SFcompare_none a b :
  SFcompare a b = None -> a = S754_nan \/ b = S754_nan.
Proof.
  destruct a as [sa|sa| |sa ma ea], b as [sb|sb| |sb mb eb]; simpl; auto; discriminate.
Qed.

(** Doubles that compare equal have a difference that is [+0], [-0] or NaN. *)
Lemma SFcompare_eq_dsub a b :
  SFcompare a b = Some Eq ->
  fabs (dsub a b) = S754_zero false \/ dsub a b = S754_nan.
Proof.
  destruct a as [sa|sa| |sa ma ea], b as [sb|sb| |sb mb eb];
    try (simpl; discriminate);
    try (destruct sa, sb; simpl; auto; discriminate);
    try (destruct sa; simpl; auto; discriminate);
    try (destruct sb; simpl; auto; discriminate).
  simpl SFcompare. intros H. assert (sa = sb /\ ea = eb /\ ma = mb) as (-> & -> & ->).
  { destruct sa, sb; try discriminate;
      destruct (ea ?= eb) eqn:E; try discriminate;
      apply Z.compare_eq in E;
      destruct (Pos.compare_cont Eq ma mb) eqn:F; try discriminate;
      apply Pos.compare_eq in F; auto. }
  left. rewrite (dsub_diag (S754_finite sb mb eb)); reflexivity.
Qed.

Lemma ddiv_nan_r a : ddiv a S754_nan = S754_nan.
Proof. destruct a; reflexivity. Qed.

Lemma norm_nan_x P : x P = S754_nan -> norm P = S754_nan.
Proof. unfold norm, dot. intros ->. reflexivity. Qed.

Lemma dsub_nan_l b : dsub S754_nan b = S754_nan.
Proof. reflexivity. Qed.
Lemma dsub_nan_r a : dsub a S754_nan = S754_nan.
Proof. destruct a; reflexivity. Qed.

Lemma sine_swap_raw P Q :
  dlt (fabs (dsub (x P) (x Q))) epsilon = false ->
  sine (mkline P Q) = sine (mkline Q P).
Proof.
  intros G. unfold sine; simpl.
  rewrite <- (dsub_swap_abs (x P) (x Q)), G.
  rewrite (norm_sub_swap P Q).
  set (N := norm (point_sub Q P)).
  unfold dgt.
  destruct (SFcompare (x Q) (x P)) as [c|] eqn:E.
  - rewrite (SFcompare_antisym _ _ _ E).
    destruct c; simpl; try reflexivity.
    apply SFcompare_eq_dsub in E. destruct E as [E|E].
    + rewrite (dsub_swap_abs (x P) (x Q)), E in G. discriminate.
    + assert (N = S754_nan) as ->.
      { apply norm_nan_x. simpl. exact E. }
      rewrite !ddiv_nan_r. reflexivity.
  - assert (N = S754_nan) as ->.
    { apply norm_nan_x. simpl.
      destruct (SFcompare_none _ _ E) as [-> | ->]; [apply dsub_nan_l|apply dsub_nan_r]. }
    destruct (SFcompare (x P) (x Q)) as [[]|]; rewrite !ddiv_nan_r; reflexivity.
Qed.

(** [a >= epsilon] rules out [a < epsilon]. *)
Lemma dle_not_dlt a b : dle a b = true -> dlt b a = false.
Proof.
  unfold dle, dlt, SFleb, SFltb.
  destruct (SFcompare a b) as [c|] eqn:E; try discriminate.
  rewrite (SFcompare_antisym _ _ _ E). destruct c; simpl; congruence.
Qed.

(** ** The rounding of [SpecFloat], in closed form *)

Lemma fexp_fexp64 k : fexp prec emax k = fexp64 k.
Proof. reflexivity. Qed.

(** *** Number of binary digits *)

Lemma digits2_pos_bounds p :
  2 ^ (Zpos (digits2_pos p) - 1) <= Zpos p < 2 ^ Zpos (digits2_pos p).
Proof.
  induction p as [p IH|p IH|]; simpl digits2_pos.
  - rewrite Pos2Z.inj_succ.
    replace (Z.succ (Z.pos (digits2_pos p)) - 1) with (Z.succ (Z.pos (digits2_pos p) - 1)) by lia.
    rewrite !Z.pow_succ_r by lia. lia.
  - rewrite Pos2Z.inj_succ.
    replace (Z.succ (Z.pos (digits2_pos p)) - 1) with (Z.succ (Z.pos (digits2_pos p) - 1)) by lia.
    rewrite !Z.pow_succ_r by lia. lia.
  - simpl. lia.
Qed.

Lemma Zdigits2_bounds M :
  0 < M -> 2 ^ (Zdigits2 M - 1) <= M < 2 ^ Zdigits2 M.
Proof.
  destruct M as [|p|p]; try lia. intros _. apply digits2_pos_bounds.
Qed.

Lemma Zdigits2_pos M : 0 < M -> 0 < Zdigits2 M.
Proof. destruct M; simpl; lia. Qed.

Lemma Zdigits2_unique M d :
  2 ^ (d - 1) <= M < 2 ^ d -> 0 < d -> Zdigits2 M = d.
Proof.
  intros H Hd.
  assert (0 < M) by (pose proof (Z.pow_pos_nonneg 2 (d - 1)); lia).
  pose proof (Zdigits2_bounds M H0) as B.
  pose proof (Zdigits2_pos M H0) as P.
  destruct (Z.lt_trichotomy (Zdigits2 M) d) as [L|[L|L]]; [|assumption|].
  - assert (2 ^ Zdigits2 M <= 2 ^ (d - 1)) by (apply Z.pow_le_mono_r; lia). lia.
  - assert (2 ^ d <= 2 ^ (Zdigits2 M - 1)) by (apply Z.pow_le_mono_r; lia). lia.
Qed.

Lemma Zdigits2_mono M N : 0 < M <= N -> Zdigits2 M <= Zdigits2 N.
Proof.
  intros H.
  pose proof (Zdigits2_bounds M) as BM. pose proof (Zdigits2_bounds N) as BN.
  destruct (Z.le_gt_cases (Zdigits2 M) (Zdigits2 N)) as [L|L]; [assumption|].
  assert (2 ^ Zdigits2 N <= 2 ^ (Zdigits2 M - 1)).
  { apply Z.pow_le_mono_r; lia. }
  lia.
Qed.

Lemma Zdigits2_shift M k : 0 < M -> 0 <= k -> Zdigits2 (M * 2 ^ k) = Zdigits2 M + k.
Proof.
  intros HM Hk. pose proof (Zdigits2_bounds M HM) as B.
  pose proof (Zdigits2_pos M HM) as P.
  apply Zdigits2_unique; [|lia].
  replace (Zdigits2 M + k - 1) with (Zdigits2 M - 1 + k) by lia.
  rewrite !Z.pow_add_r by lia.
  assert (0 < 2 ^ k) by (apply Z.pow_pos_nonneg; lia). nia.
Qed.

(** *** Shifting right with a round bit and a sticky bit *)

Lemma iter_pos_nat {T} (f : T -> T) p a :
  iter_pos f p a = Nat.iter (Pos.to_nat p) f a.
Proof.
  revert a. induction p as [p IH|p IH|]; intros a; simpl iter_pos.
  - rewrite !IH, Pos2Nat.inj_xI. simpl.
    rewrite <- Nat.iter_add. replace (Pos.to_nat p + (Pos.to_nat p + 0))%nat
      with (Pos.to_nat p + Pos.to_nat p)%nat by lia.
    rewrite <- Nat.iter_succ_r. reflexivity.
  - rewrite !IH, Pos2Nat.inj_xO. simpl.
    rewrite <- Nat.iter_add. f_equal. lia.
  - reflexivity.
Qed.

Lemma shr_1_spec m r s :
  0 <= m ->
  shr_1 (Build_shr_record m r s) = Build_shr_record (m / 2) (Z.odd m) (r || s).
Proof.
  intros H. rewrite <- Z.div2_div.
  destruct m as [|[p|p|]|p]; try lia; reflexivity.
Qed.

Lemma shr_iter_spec (k : nat) M :
  0 <= M ->
  Nat.iter (S k) shr_1 (Build_shr_record M false false) =
  Build_shr_record (M / 2 ^ Z.of_nat (S k)) (Z.odd (M / 2 ^ Z.of_nat k))
                   (negb (M mod 2 ^ Z.of_nat k =? 0)).
Proof.
  intros HM. induction k as [|k IH].
  - change (Nat.iter 1 shr_1 (Build_shr_record M false false))
      with (shr_1 (Build_shr_record M false false)).
    rewrite shr_1_spec by assumption.
    change (2 ^ Z.of_nat 1) with 2. change (2 ^ Z.of_nat 0) with 1.
    rewrite Z.div_1_r, Z.mod_1_r. reflexivity.
  - rewrite Nat.iter_succ, IH.
    assert (P : 0 < 2 ^ Z.of_nat (S k)) by (apply Z.pow_pos_nonneg; lia).
    assert (P' : 0 < 2 ^ Z.of_nat k) by (apply Z.pow_pos_nonneg; lia).
    rewrite shr_1_spec by (apply Z.div_pos; lia).
    f_equal.
    + rewrite Z.div_div by lia.
      f_equal. rewrite (Nat2Z.inj_succ (S k)), Z.pow_succ_r by lia. lia.
    + rewrite (Nat2Z.inj_succ k), Z.pow_succ_r by lia.
      rewrite (Z.mul_comm 2), Z.rem_mul_r by lia.
      rewrite Zmod_odd.
      pose proof (Z.mod_pos_bound M (2 ^ Z.of_nat k) P').
      destruct (Z.odd (M / 2 ^ Z.of_nat k)); simpl.
      * symmetry. apply negb_true_iff, Z.eqb_neq. lia.
      * rewrite Z.mul_0_r, Z.add_0_r. reflexivity.
Qed.

Lemma rne_0 M : rne M 0 = M.
Proof.
  unfold rne. change (2 ^ 0) with 1. rewrite Z.mod_1_r, Z.div_1_r. reflexivity.
Qed.

Lemma shr_iter_rne (k : nat) M :
  0 <= M ->
  let r := Nat.iter k shr_1 (Build_shr_record M false false) in
  shr_m r = M / 2 ^ Z.of_nat k /\
  round_nearest_even (shr_m r) (loc_of_shr_record r) = rne M (Z.of_nat k).
Proof.
  intros HM. destruct k as [|k].
  - simpl. rewrite rne_0, Z.div_1_r. auto.
  - intros r. unfold r. rewrite shr_iter_spec by assumption.
    split; [reflexivity|].
    unfold rne. cbn [shr_m].
    assert (P' : 0 < 2 ^ Z.of_nat k) by (apply Z.pow_pos_nonneg; lia).
    rewrite (Nat2Z.inj_succ k), Z.pow_succ_r by lia.
    pose proof (Z.mod_pos_bound M (2 ^ Z.of_nat k) P') as Bd.
    replace (M mod (2 * 2 ^ Z.of_nat k))
      with (M mod 2 ^ Z.of_nat k + 2 ^ Z.of_nat k * ((M / 2 ^ Z.of_nat k) mod 2))
      by (rewrite (Z.mul_comm 2), Z.rem_mul_r by lia; reflexivity).
    rewrite Zmod_odd.
    set (P2 := 2 ^ Z.of_nat k) in *. set (lo := M mod P2) in *.
    set (q := M / (2 * P2)).
    destruct (Z.odd (M / P2)); destruct (Z.eqb_spec lo 0) as [E|E];
      cbn [negb loc_of_shr_record round_nearest_even];
      match goal with
      | |- context [?a ?= ?b] => destruct (Z.compare_spec a b)
      end; try reflexivity; lia.
Qed.

Lemma shr_record_of_loc_iter q l :
  0 <= q ->
  shr_record_of_loc q l =
  Nat.iter 2 shr_1 (Build_shr_record (4 * q + loc_code l) false false).
Proof.
  intros Hq.
  assert (C : 0 <= loc_code l < 4) by (destruct l as [|[]]; simpl; lia).
  rewrite shr_iter_spec by lia.
  change (2 ^ Z.of_nat 2) with 4. change (2 ^ Z.of_nat 1) with 2.
  replace ((4 * q + loc_code l) / 4) with q
    by (apply Z.div_unique with (r := loc_code l); lia).
  assert (D : (4 * q + loc_code l) / 2 = 2 * q + loc_code l / 2).
  { replace (4 * q + loc_code l) with (loc_code l + (2 * q) * 2) by lia.
    rewrite Z.div_add by lia. lia. }
  assert (R : (4 * q + loc_code l) mod 2 = loc_code l mod 2).
  { replace (4 * q + loc_code l) with (loc_code l + (2 * q) * 2) by lia.
    apply Z.mod_add. lia. }
  rewrite D, R, Z.add_comm, Z.odd_add_mul_2.
  destruct l as [|[]]; reflexivity.
Qed.

Lemma shr_iter (j : nat) M e z :
  shr (Nat.iter j shr_1 (Build_shr_record M false false)) e z =
  (Nat.iter (Z.to_nat (Z.max 0 z) + j) shr_1 (Build_shr_record M false false),
   e + Z.max 0 z).
Proof.
  destruct z as [|p|p]; unfold shr.
  - simpl. rewrite Z.add_0_r. reflexivity.
  - rewrite iter_pos_nat, <- Nat.iter_add.
    replace (Z.max 0 (Z.pos p)) with (Z.pos p) by lia.
    rewrite Z2Nat.inj_pos. reflexivity.
  - replace (Z.max 0 (Z.neg p)) with 0 by lia. simpl. rewrite Z.add_0_r. reflexivity.
Qed.

Lemma rne_nonneg M k : 0 <= M -> 0 <= rne M k.
Proof.
  intros H. unfold rne.
  assert (0 <= M / 2 ^ k).
  { destruct (Z.le_gt_cases 0 k).
    - apply Z.div_pos; [assumption|]. apply Z.pow_pos_nonneg; lia.
    - rewrite Z.pow_neg_r by lia. rewrite Z.div_0_r. lia. }
  destruct (_ ?= _); [destruct (Z.even _)| |]; lia.
Qed.

(** [binary_round_aux] in closed form: two shifts, each rounding to
    nearest even. *)
Lemma binary_round_aux_eq s q e l :
  0 <= q -> binary_round_aux prec emax s q e l = round_core s q e l.
Proof.
  intros Hq. unfold binary_round_aux, round_core, shr_fexp.
  rewrite !fexp_fexp64.
  set (z := fexp64 (Zdigits2 q + e) - e).
  rewrite shr_record_of_loc_iter by assumption.
  rewrite shr_iter.
  assert (HM : 0 <= 4 * q + loc_code l) by (destruct l as [|[]]; cbn [loc_code]; lia).
  destruct (shr_iter_rne (Z.to_nat (Z.max 0 z) + 2) _ HM) as [_ R].
  cbv zeta in R. rewrite R. clear R.
  replace (Z.of_nat (Z.to_nat (Z.max 0 z) + 2)) with (Z.max 0 z + 2) by lia.
  set (m1 := rne _ _).
  assert (H1 : 0 <= m1) by (apply rne_nonneg; assumption).
  change (shr_record_of_loc m1 loc_Exact)
    with (Nat.iter 0 shr_1 (Build_shr_record m1 false false)).
  rewrite shr_iter.
  change (fexp prec emax) with fexp64.
  set (z2 := fexp64 (Zdigits2 m1 + (e + Z.max 0 z)) - (e + Z.max 0 z)).
  destruct (shr_iter_rne (Z.to_nat (Z.max 0 z2) + 0) _ H1) as [D _].
  cbv zeta in D. rewrite D.
  replace (Z.of_nat (Z.to_nat (Z.max 0 z2) + 0)) with (Z.max 0 z2) by lia.
  reflexivity.
Qed.

(** *** Rounding to nearest, ties to even, on integers *)

Lemma rne_cases M k :
  0 <= k ->
  exists q r, M = 2 ^ k * q + r /\ 0 <= r < 2 ^ k /\
    ((2 * r < 2 ^ k /\ rne M k = q) \/
     (2 * r = 2 ^ k /\ rne M k = (if Z.even q then q else q + 1)) \/
     (2 * r > 2 ^ k /\ rne M k = q + 1)).
Proof.
  intros Hk. assert (P : 0 < 2 ^ k) by (apply Z.pow_pos_nonneg; lia).
  exists (M / 2 ^ k), (M mod 2 ^ k).
  split; [apply Z.div_mod; lia|].
  split; [apply Z.mod_pos_bound; lia|].
  unfold rne. destruct (Z.compare_spec (2 * (M mod 2 ^ k)) (2 ^ k)); auto.
  right; right. split; [lia|reflexivity].
Qed.

Lemma rne_mono M1 M2 k : 0 <= k -> M1 <= M2 -> rne M1 k <= rne M2 k.
Proof.
  intros Hk H.
  destruct (rne_cases M1 k Hk) as (q1 & r1 & E1 & B1 & C1).
  destruct (rne_cases M2 k Hk) as (q2 & r2 & E2 & B2 & C2).
  assert (P : 0 < 2 ^ k) by (apply Z.pow_pos_nonneg; lia).
  set (p := 2 ^ k) in *. clearbody p.
  assert (Q : q1 <= q2) by nia.
  destruct (Z.eq_dec q1 q2) as [->|N].
  - assert (r1 <= r2) by lia.
    destruct C1 as [[? ->]|[[? ->]|[? ->]]], C2 as [[? ->]|[[? ->]|[? ->]]];
      try destruct (Z.even q2); lia.
  - destruct C1 as [[? ->]|[[? ->]|[? ->]]], C2 as [[? ->]|[[? ->]|[? ->]]];
      try destruct (Z.even q1); try destruct (Z.even q2); lia.
Qed.

Lemma rne_exact c k : 0 <= k -> rne (c * 2 ^ k) k = c.
Proof.
  intros Hk. assert (P : 0 < 2 ^ k) by (apply Z.pow_pos_nonneg; lia).
  unfold rne. rewrite Z.div_mul, Z.mod_mul by lia.
  destruct (Z.compare_spec (2 * 0) (2 ^ k)); lia.
Qed.

Lemma rne_scale M k j : 0 <= k -> 0 <= j -> rne (M * 2 ^ j) (k + j) = rne M k.
Proof.
  intros Hk Hj.
  assert (P : 0 < 2 ^ k) by (apply Z.pow_pos_nonneg; lia).
  assert (J : 0 < 2 ^ j) by (apply Z.pow_pos_nonneg; lia).
  unfold rne. rewrite Z.pow_add_r by lia.
  rewrite Z.div_mul_cancel_r by lia.
  rewrite Z.mul_mod_distr_r by lia.
  replace (2 * (M mod 2 ^ k * 2 ^ j)) with (2 * (M mod 2 ^ k) * 2 ^ j) by lia.
  set (a := 2 * (M mod 2 ^ k)). set (b := 2 ^ k) in *. set (c := 2 ^ j) in *.
  destruct (Z.compare_spec (a * c) (b * c)), (Z.compare_spec a b);
    try reflexivity; nia.
Qed.

Lemma rne_near M k :
  0 <= k -> 2 * Z.abs (rne M k * 2 ^ k - M) <= 2 ^ k.
Proof.
  intros Hk. destruct (rne_cases M k Hk) as (q & r & E & Bd & C).
  set (p := 2 ^ k) in *. clearbody p.
  destruct C as [[? ->]|[[? ->]|[? ->]]]; try destruct (Z.even q); lia.
Qed.

Lemma rne_ge M k c : 0 <= k -> c * 2 ^ k <= M -> c <= rne M k.
Proof.
  intros Hk H. rewrite <- (rne_exact c k Hk). apply rne_mono; assumption.
Qed.

Lemma rne_le M k c : 0 <= k -> M <= c * 2 ^ k -> rne M k <= c.
Proof.
  intros Hk H. rewrite <- (rne_exact c k Hk). apply rne_mono; assumption.
Qed.

Lemma rne_code q l : 0 <= q -> rne (4 * q + loc_code l) 2 = round_nearest_even q l.
Proof.
  intros Hq. unfold rne. change (2 ^ 2) with 4.
  assert (C : 0 <= loc_code l < 4) by (destruct l as [|[]]; cbn [loc_code]; lia).
  replace ((4 * q + loc_code l) / 4) with q
    by (apply Z.div_unique with (r := loc_code l); lia).
  replace ((4 * q + loc_code l) mod 4) with (loc_code l)
    by (apply Z.mod_unique with (q := q); lia).
  destruct l as [|[]]; reflexivity.
Qed.

(** *** Ranks and the comparison of doubles *)

Lemma canonical_bounds m e :
  0 < m -> fexp64 (Zdigits2 m + e) = e ->
  -1074 <= e /\ m < 2 ^ 53 /\ (-1074 < e -> 2 ^ 52 <= m).
Proof.
  intros Hm H. unfold fexp64 in H.
  pose proof (Zdigits2_bounds m Hm) as Bd.
  pose proof (Zdigits2_pos m Hm) as Pd.
  split; [lia|]. split.
  - assert (2 ^ Zdigits2 m <= 2 ^ 53) by (apply Z.pow_le_mono_r; lia). lia.
  - intros L. replace (Zdigits2 m) with 53 in Bd by lia. simpl in Bd. simpl. lia.
Qed.

Lemma good_rank_bounds a : good a -> 0 <= rank a <= INF.
Proof.
  destruct a as [s|[]| |[] m e]; cbn [good rank]; try tauto;
    try (intros _; unfold INF; lia).
  intros [C B].
  destruct (canonical_bounds (Zpos m) e ltac:(lia) C) as (L & U & _).
  split; [unfold base; apply Z.mul_nonneg_nonneg; [lia|apply Z.pow_nonneg; lia]|].
  unfold INF, base.
  assert (2 ^ (e + 2200) <= 2 ^ 3171) by (apply Z.pow_le_mono_r; lia).
  assert (0 < 2 ^ (e + 2200)) by (apply Z.pow_pos_nonneg; lia).
  replace (2 ^ 3224) with (2 ^ 53 * 2 ^ 3171) by (rewrite <- Z.pow_add_r by lia; reflexivity).
  nia.
Qed.

Lemma pow2_pos k : 0 <= k -> 0 < 2 ^ k.
Proof. intros. apply Z.pow_pos_nonneg; lia. Qed.

Lemma pow2_le a b : 0 <= a <= b -> 2 ^ a <= 2 ^ b.
Proof. intros. apply Z.pow_le_mono_r; lia. Qed.

Lemma pow2_split a b : 0 <= a -> 0 <= b -> 2 ^ (a + b) = 2 ^ a * 2 ^ b.
Proof. intros. apply Z.pow_add_r; lia. Qed.

Lemma INF_eq : INF = 2 ^ 53 * 2 ^ 3171.
Proof. unfold INF. rewrite <- Z.pow_add_r by lia. reflexivity. Qed.

Lemma canonical_rank_lt m e :
  fexp64 (Zdigits2 (Zpos m) + e) = e -> e <= 971 ->
  0 < Zpos m * 2 ^ (e + base) < INF.
Proof.
  intros C B.
  destruct (canonical_bounds (Zpos m) e ltac:(lia) C) as (L & U & _).
  unfold base. rewrite INF_eq.
  pose proof (pow2_pos (e + 2200) ltac:(lia)).
  pose proof (pow2_le (e + 2200) 3171 ltac:(lia)).
  nia.
Qed.

Lemma scaled_lt_of_exp m1 e1 m2 e2 :
  0 < m1 < 2 ^ 53 -> 2 ^ 52 <= m2 -> e1 < e2 -> - base <= e1 ->
  m1 * 2 ^ (e1 + base) < m2 * 2 ^ (e2 + base).
Proof.
  unfold base. intros H1 H2 L Bd.
  replace (e2 + 2200) with (e1 + 2200 + (e2 - e1)) by lia.
  rewrite (pow2_split (e1 + 2200) (e2 - e1)) by lia.
  pose proof (pow2_pos (e1 + 2200) ltac:(lia)) as P.
  pose proof (pow2_le 1 (e2 - e1) ltac:(lia)) as Q. change (2 ^ 1) with 2 in Q.
  set (p := 2 ^ (e1 + 2200)) in *. set (q := 2 ^ (e2 - e1)) in *.
  change (2 ^ 53) with (2 * 2 ^ 52) in H1.
  assert (m1 * p < 2 * m2 * p) by nia.
  assert (2 * m2 * p <= m2 * (p * q)) by nia.
  lia.
Qed.

(** On non-negative canonical doubles the comparison is the comparison of
    ranks. *)
Lemma SFcompare_rank a b :
  good a -> good b -> SFcompare a b = Some (rank a ?= rank b).
Proof.
  destruct a as [sa|[]| |[] ma ea], b as [sb|[]| |[] mb eb];
    cbn [good rank]; try (intros []; fail); try (intros _ []; fail); intros Ga Gb;
    try (match type of Ga with _ /\ _ =>
           destruct Ga as [Ca Ba]; pose proof (canonical_rank_lt ma ea Ca Ba) end);
    try (match type of Gb with _ /\ _ =>
           destruct Gb as [Cb Bb]; pose proof (canonical_rank_lt mb eb Cb Bb) end);
    try (cbn [SFcompare]; f_equal; symmetry;
         first [apply Z.compare_lt_iff | apply Z.compare_gt_iff | apply Z.compare_eq_iff];
         unfold INF in *; lia).
  - destruct (canonical_bounds (Zpos ma) ea ltac:(lia) Ca) as (La & Ua & Na).
    destruct (canonical_bounds (Zpos mb) eb ltac:(lia) Cb) as (Lb & Ub & Nb).
    cbn [SFcompare]. f_equal. unfold base.
    destruct (Z.compare_spec ea eb) as [->|L|L].
    + change (Pos.compare_cont Eq ma mb) with (Z.pos ma ?= Z.pos mb).
      pose proof (pow2_pos (eb + 2200) ltac:(lia)).
      destruct (Z.compare_spec (Z.pos ma) (Z.pos mb)); symmetry;
        [apply Z.compare_eq_iff|apply Z.compare_lt_iff|apply Z.compare_gt_iff]; nia.
    + specialize (Nb ltac:(lia)).
      symmetry. apply Z.compare_lt_iff. apply scaled_lt_of_exp; unfold base; lia.
    + specialize (Na ltac:(lia)).
      symmetry. apply Z.compare_gt_iff. apply scaled_lt_of_exp; unfold base; lia.
Qed.

Lemma dle_rank a b : good a -> good b -> (dle a b = true <-> rank a <= rank b).
Proof.
  intros Ga Gb. unfold dle, SFleb. rewrite (SFcompare_rank a b Ga Gb).
  destruct (Z.compare_spec (rank a) (rank b)); split; intros; try lia; try reflexivity; discriminate.
Qed.

Lemma dlt_rank a b : good a -> good b -> (dlt a b = true <-> rank a < rank b).
Proof.
  intros Ga Gb. unfold dlt, SFltb. rewrite (SFcompare_rank a b Ga Gb).
  destruct (Z.compare_spec (rank a) (rank b)); split; intros; try lia; try reflexivity; discriminate.
Qed.

Lemma dlt_false_rank a b : good a -> good b -> (dlt a b = false <-> rank b <= rank a).
Proof.
  intros Ga Gb. unfold dlt, SFltb. rewrite (SFcompare_rank a b Ga Gb).
  destruct (Z.compare_spec (rank a) (rank b)); split; intros; try lia; try reflexivity; discriminate.
Qed.

(** *** The rounding function on ranks *)

Lemma Rz_exact m e :
  0 < m -> fexp64 (Zdigits2 m + e) = e ->
  Rz (m * 2 ^ (e + base)) = m * 2 ^ (e + base).
Proof.
  intros Hm C. destruct (canonical_bounds m e Hm C) as (L & _ & _).
  unfold Rz, base in *. rewrite Zdigits2_shift by lia.
  replace (Z.max (Zdigits2 m + (e + 2200) - 53) 1126) with (e + 2200)
    by (unfold fexp64 in C; lia).
  rewrite rne_exact by lia. reflexivity.
Qed.

Lemma Rz_bounds V :
  0 < V ->
  let d := Zdigits2 V in
  let t := Z.max (d - 53) 1126 in
  Rz V <= 2 ^ Z.max d t /\ (t = d - 53 -> 2 ^ (d - 1) <= Rz V).
Proof.
  intros HV d t. unfold Rz. fold d t.
  pose proof (Zdigits2_bounds V HV) as Bd. fold d in Bd.
  pose proof (Zdigits2_pos V HV) as Pd. fold d in Pd.
  assert (Ht : 0 <= t) by lia.
  pose proof (pow2_pos t Ht) as Pt.
  split.
  - replace (Z.max d t) with (Z.max d t - t + t) by lia.
    rewrite pow2_split by lia.
    apply Z.mul_le_mono_nonneg_r; [lia|].
    apply rne_le; [lia|]. rewrite <- pow2_split by lia.
    replace (Z.max d t - t + t) with (Z.max d t) by lia.
    pose proof (pow2_le d (Z.max d t) ltac:(lia)). lia.
  - intros E. replace (d - 1) with (52 + t) by lia.
    rewrite pow2_split by lia.
    apply Z.mul_le_mono_nonneg_r; [lia|].
    apply rne_ge; [lia|]. rewrite <- pow2_split by lia.
    replace (52 + t) with (d - 1) by lia. lia.
Qed.

Lemma Rz_mono V1 V2 : 0 < V1 <= V2 -> Rz V1 <= Rz V2.
Proof.
  intros H.
  pose proof (Zdigits2_mono V1 V2 H) as D.
  destruct (Rz_bounds V1 ltac:(lia)) as [U1 _].
  destruct (Rz_bounds V2 ltac:(lia)) as [_ L2].
  cbv zeta in *.
  set (d1 := Zdigits2 V1) in *. set (d2 := Zdigits2 V2) in *.
  destruct (Z.eq_dec (Z.max (d1 - 53) 1126) (Z.max (d2 - 53) 1126)) as [E|N].
  - unfold Rz. fold d1 d2. rewrite E.
    apply Z.mul_le_mono_nonneg_r; [apply Z.pow_nonneg; lia|].
    apply rne_mono; lia.
  - assert (T : Z.max (d2 - 53) 1126 = d2 - 53) by lia.
    specialize (L2 T).
    pose proof (pow2_le (Z.max d1 (Z.max (d1 - 53) 1126)) (d2 - 1)
                  ltac:(pose proof (Zdigits2_pos V1); lia)).
    lia.
Qed.

Lemma Rz_near V :
  0 < V -> 2 * Z.abs (Rz V - V) <= 2 ^ Z.max (Zdigits2 V - 53) 1126.
Proof. intros HV. unfold Rz. apply rne_near. lia. Qed.

Lemma rank_pack q e :
  0 < q -> e <= 971 -> rank (pack false q e) = q * 2 ^ (e + base).
Proof.
  intros Hq He. destruct q as [|p|p]; try lia. unfold pack.
  replace (e <=? emax - prec) with true by (symmetry; apply Z.leb_le; unfold emax, prec; lia).
  reflexivity.
Qed.

Lemma pack_overflow q e : 0 < q -> 971 < e -> pack false q e = S754_infinity false.
Proof.
  intros Hq He. destruct q as [|p|p]; try lia. unfold pack.
  replace (e <=? emax - prec) with false by (symmetry; apply Z.leb_gt; unfold emax, prec; lia).
  reflexivity.
Qed.

Lemma good_pack q e :
  0 < q -> fexp64 (Zdigits2 q + e) = e -> good (pack false q e).
Proof.
  intros Hq C. destruct q as [|p|p]; try lia. unfold pack.
  destruct (Z.leb_spec e (emax - prec)); cbn [good]; auto.
Qed.

(** Rounding an exact positive quantity [M * 2^E] whose target exponent is
    not below [E]: the result is a canonical double, the nearest one. *)
Lemma round_core_rank M E :
  0 < M -> - base <= E -> E <= fexp64 (Zdigits2 M + E) ->
  good (round_core false M E loc_Exact) /\
  rank (round_core false M E loc_Exact) = Z.min (Rz (M * 2 ^ (E + base))) INF.
Proof.
  intros HM HE Hn. unfold base in *.
  pose proof (Zdigits2_bounds M HM) as Bd. pose proof (Zdigits2_pos M HM) as Pd.
  unfold round_core. cbn [loc_code].
  set (e1 := fexp64 (Zdigits2 M + E)) in *.
  replace (Z.max 0 (e1 - E)) with (e1 - E) by lia.
  replace (4 * M + 0) with (M * 2 ^ 2) by (change (2 ^ 2) with 4; lia).
  rewrite rne_scale by lia.
  replace (E + (e1 - E)) with e1 by lia.
  set (q := rne M (e1 - E)).
  assert (RV : Rz (M * 2 ^ (E + 2200)) = q * 2 ^ (e1 + 2200)).
  { unfold Rz. rewrite Zdigits2_shift by lia.
    replace (Z.max (Zdigits2 M + (E + 2200) - 53) 1126) with (e1 - E + (E + 2200))
      by (unfold e1, fexp64; lia).
    rewrite rne_scale by lia. fold q. f_equal. f_equal. lia. }
  rewrite RV. clear RV.
  assert (L1 : -1074 <= e1) by (unfold e1, fexp64; lia).
  assert (Uq : q <= 2 ^ 53).
  { apply rne_le; [lia|]. rewrite <- pow2_split by lia.
    pose proof (pow2_le (Zdigits2 M) (53 + (e1 - E)) ltac:(unfold e1, fexp64; lia)). lia. }
  assert (Lq : -1074 < e1 -> 2 ^ 52 <= q).
  { intros L. apply rne_ge; [lia|]. rewrite <- pow2_split by lia.
    replace (52 + (e1 - E)) with (Zdigits2 M - 1) by (unfold e1, fexp64 in *; lia). lia. }
  assert (Nq : 0 <= q) by (apply rne_nonneg; lia).
  pose proof (pow2_pos (e1 + 2200) ltac:(lia)) as Pe.
  destruct (Z.eq_dec q 0) as [Z0|NZ].
  - (* underflow to zero *)
    rewrite Z0. change (Zdigits2 0) with 0.
    replace (Z.max 0 (fexp64 (0 + e1) - e1)) with 0 by (unfold fexp64; lia).
    change (0 / 2 ^ 0) with 0. cbn [pack good rank]. unfold INF. split; [exact I|lia].
  - destruct (Z.eq_dec q (2 ^ 53)) as [C|NC].
    + (* the mantissa rounds up to the next binade *)
      rewrite C. change (Zdigits2 (2 ^ 53)) with 54.
      replace (Z.max 0 (fexp64 (54 + e1) - e1)) with 1 by (unfold fexp64; lia).
      change (2 ^ 53 / 2 ^ 1) with (2 ^ 52).
      destruct (Z.le_gt_cases (e1 + 1) 971) as [B|B].
      * split.
        -- apply good_pack; [lia|]. change (Zdigits2 (2 ^ 52)) with 53. unfold fexp64; lia.
        -- rewrite rank_pack by lia. unfold base.
           replace (e1 + 1 + 2200) with (1 + (e1 + 2200)) by lia.
           rewrite pow2_split by lia. change (2 ^ 53) with (2 ^ 52 * 2 ^ 1).
           rewrite INF_eq. pose proof (pow2_le (e1 + 2200) 3170 ltac:(lia)).
           change (2 ^ 3171) with (2 * 2 ^ 3170). change (2 ^ 1) with 2.
           set (p := 2 ^ (e1 + 2200)) in *. set (p' := 2 ^ 3170) in *.
           change (2 ^ 53) with (2 * 2 ^ 52). nia.
      * rewrite pack_overflow by lia. split; [exact I|]. cbn [rank].
        rewrite INF_eq. pose proof (pow2_le 3171 (e1 + 2200) ltac:(lia)).
        set (p := 2 ^ (e1 + 2200)) in *. set (p' := 2 ^ 3171) in *. nia.
    + (* the common case *)
      assert (Dq : Zdigits2 q <= 53).
      { pose proof (Zdigits2_bounds q ltac:(lia)).
        destruct (Z.le_gt_cases (Zdigits2 q) 53); [assumption|].
        pose proof (pow2_le 53 (Zdigits2 q - 1) ltac:(lia)). lia. }
      assert (Cq : fexp64 (Zdigits2 q + e1) = e1).
      { destruct (Z.eq_dec e1 (-1074)) as [->|N]; [unfold fexp64; lia|].
        specialize (Lq ltac:(lia)).
        assert (Zdigits2 q = 53) by (apply Zdigits2_unique; lia).
        unfold fexp64. lia. }
      replace (Z.max 0 (fexp64 (Zdigits2 q + e1) - e1)) with 0 by lia.
      change (2 ^ 0) with 1. rewrite Z.div_1_r, Z.add_0_r.
      split; [apply good_pack; [lia|assumption]|].
      destruct (Z.le_gt_cases e1 971) as [B|B].
      * rewrite rank_pack by lia. unfold base. rewrite INF_eq.
        pose proof (pow2_le (e1 + 2200) 3171 ltac:(lia)).
        set (p := 2 ^ (e1 + 2200)) in *. set (p' := 2 ^ 3171) in *. nia.
      * rewrite pack_overflow by lia. cbn [rank]. rewrite INF_eq.
        specialize (Lq ltac:(lia)).
        pose proof (pow2_le 3172 (e1 + 2200) ltac:(lia)).
        change (2 ^ 3172) with (2 * 2 ^ 3171) in H. change (2 ^ 53) with (2 * 2 ^ 52).
        set (p := 2 ^ (e1 + 2200)) in *. set (p' := 2 ^ 3171) in *. nia.
Qed.

(** *** Results of the arithmetic operations *)

Lemma good_fabs a : is_double a = true -> a <> S754_nan -> good (fabs a).
Proof.
  destruct a as [s|s| |s m e]; cbn [fabs SFabs good]; auto; try congruence.
  unfold is_double, valid_binary, bounded, canonical_mantissa.
  intros H _. apply andb_true_iff in H. destruct H as [H1 H2].
  apply Z.eqb_eq in H1. apply Z.leb_le in H2.
  split; [exact H1|]. unfold emax, prec in H2. lia.
Qed.

Lemma fabs_binary_round s p e :
  fabs (binary_round prec emax s p e) = binary_round prec emax false p e.
Proof.
  unfold binary_round. destruct (shl_align p e _) as [mz ez].
  unfold binary_round_aux.
  destruct (shr_fexp prec emax (Zpos mz) ez loc_Exact) as [mrs' e'].
  destruct (shr_fexp prec emax _ e' loc_Exact) as [mrs'' e''].
  destruct (shr_m mrs''); try reflexivity.
  destruct (e'' <=? emax - prec); reflexivity.
Qed.

Lemma shl_align_spec m e e' :
  let r := shl_align m e e' in
  Zpos (fst r) = Zpos m * 2 ^ (e - Z.min e e') /\ snd r = Z.min e e'.
Proof.
  unfold shl_align. destruct (e' - e) as [|d|d] eqn:E; cbn [fst snd].
  - replace (Z.min e e') with e by lia. rewrite Z.sub_diag. simpl. lia.
  - replace (Z.min e e') with e by lia. rewrite Z.sub_diag. simpl. lia.
  - replace (Z.min e e') with e' by lia. split; [|reflexivity].
    replace (e - e') with (Zpos d) by lia.
    change (Pos.iter xO m d) with (shift_pos d m).
    rewrite shift_pos_correct. change (Z.pow_pos 2 d) with (2 ^ Zpos d). lia.
Qed.

(** [binary_round] of a positive integer mantissa at an exponent not below
    the smallest one. *)
Lemma binary_round_rank p e :
  -1074 <= e ->
  good (binary_round prec emax false p e) /\
  rank (binary_round prec emax false p e) = Z.min (Rz (Zpos p * 2 ^ (e + base))) INF.
Proof.
  intros He. unfold binary_round.
  change (fexp prec emax) with fexp64.
  change (Zpos (digits2_pos p)) with (Zdigits2 (Zpos p)).
  set (e' := fexp64 (Zdigits2 (Zpos p) + e)).
  destruct (shl_align_spec p e e') as [F S].
  destruct (shl_align p e e') as [mz ez]. cbn [fst snd] in F, S.
  rewrite binary_round_aux_eq by lia.
  assert (L' : -1074 <= e') by (unfold e', fexp64; lia).
  assert (V : Zpos mz * 2 ^ (ez + base) = Zpos p * 2 ^ (e + base)).
  { rewrite F, S. unfold base. rewrite <- Z.mul_assoc, <- pow2_split by lia.
    f_equal. f_equal. lia. }
  rewrite <- V. apply round_core_rank; [lia|unfold base; lia|].
  rewrite F, S, Zdigits2_shift by lia.
  replace (Zdigits2 (Zpos p) + (e - Z.min e e') + Z.min e e')
    with (Zdigits2 (Zpos p) + e) by lia.
  fold e'. lia.
Qed.

Lemma binary_normalize_rank z e :
  -1074 <= e ->
  good (fabs (binary_normalize prec emax z e false)) /\
  (0 < z -> good (binary_normalize prec emax z e false) /\
            rank (binary_normalize prec emax z e false)
            = Z.min (Rz (z * 2 ^ (e + base))) INF).
Proof.
  intros He. destruct z as [|p|p]; cbn [binary_normalize].
  - split; [exact I|lia].
  - split; [rewrite fabs_binary_round|intros _]; apply binary_round_rank; assumption.
  - split; [rewrite fabs_binary_round; apply binary_round_rank; assumption|lia].
Qed.

Lemma good_exponent s m e : good (fabs (S754_finite s m e)) -> -1074 <= e.
Proof.
  cbn [fabs SFabs good]. intros [C _].
  destruct (canonical_bounds (Zpos m) e ltac:(lia) C). assumption.
Qed.

(** A difference of finite doubles is a double, never NaN. *)
Lemma dsub_good a b :
  good (fabs a) -> good (fabs b) -> is_finite a = true -> is_finite b = true ->
  good (fabs (dsub a b)).
Proof.
  destruct a as [sa|sa| |sa ma ea], b as [sb|sb| |sb mb eb];
    cbn [is_finite]; try discriminate; intros Ga Gb _ _.
  - destruct sa, sb; exact I.
  - exact Gb.
  - exact Ga.
  - unfold dsub, SFsub. apply binary_normalize_rank.
    pose proof (good_exponent _ _ _ Ga). pose proof (good_exponent _ _ _ Gb). lia.
Qed.

(** The square of a double. *)
Lemma dmul_sq_rank a :
  good (fabs a) ->
  good (dmul a a) /\
  match a with
  | S754_finite _ m e =>
      rank (dmul a a) = Z.min (Rz (Zpos m * Zpos m * 2 ^ (2 * e + base))) INF
  | _ => rank (dmul a a) = rank (fabs a)
  end.
Proof.
  destruct a as [s|s| |s m e]; cbn [fabs SFabs good].
  - intros _. destruct s; split; reflexivity || exact I.
  - intros _. destruct s; split; reflexivity || exact I.
  - intros [].
  - intros [C Bd].
    destruct (canonical_bounds (Zpos m) e ltac:(lia) C) as (L & U & N).
    unfold dmul, SFmul. rewrite xorb_nilpotent.
    rewrite binary_round_aux_eq by lia.
    rewrite Pos2Z.inj_mul. replace (e + e) with (2 * e) by lia.
    apply round_core_rank; [lia|unfold base; lia|].
    destruct (Z.eq_dec e (-1074)) as [->|NE]; [unfold fexp64; lia|].
    specialize (N ltac:(lia)).
    assert (2 ^ 104 <= Zpos m * Zpos m) by (change (2 ^ 104) with (2 ^ 52 * 2 ^ 52); nia).
    pose proof (Zdigits2_bounds (Zpos m * Zpos m) ltac:(lia)) as Bm.
    assert (105 <= Zdigits2 (Zpos m * Zpos m)).
    { destruct (Z.le_gt_cases 105 (Zdigits2 (Zpos m * Zpos m))); [assumption|].
      pose proof (pow2_le (Zdigits2 (Zpos m * Zpos m)) 104
                    ltac:(pose proof (Zdigits2_pos (Zpos m * Zpos m)); lia)). lia. }
    unfold fexp64. lia.
Qed.

Lemma rank_finite_pos m e :
  -1074 <= e -> 0 < rank (S754_finite false m e).
Proof.
  intros. cbn [rank]. pose proof (pow2_pos (e + base) ltac:(unfold base; lia)). nia.
Qed.

Lemma dmul_sq_mono a b :
  good (fabs a) -> good (fabs b) -> rank (fabs a) <= rank (fabs b) ->
  rank (dmul a a) <= rank (dmul b b).
Proof.
  intros Ga Gb H.
  destruct (dmul_sq_rank a Ga) as [Ha Ra], (dmul_sq_rank b Gb) as [Hb Rb].
  pose proof (good_rank_bounds _ Ha). pose proof (good_rank_bounds _ Hb).
  pose proof (good_rank_bounds _ Ga). pose proof (good_rank_bounds _ Gb).
  destruct a as [sa|sa| |sa ma ea].
  - rewrite Ra. cbn [fabs SFabs rank]. lia.
  - rewrite Ra. destruct b as [sb|sb| |sb mb eb]; try (rewrite Rb; lia); try contradiction.
    exfalso. cbn [fabs SFabs rank good] in H, Gb.
    destruct Gb as [C Bd]. pose proof (canonical_rank_lt mb eb C Bd). lia.
  - contradiction.
  - pose proof (good_exponent _ _ _ Ga) as La.
    pose proof (rank_finite_pos ma ea La) as Pa.
    destruct b as [sb|sb| |sb mb eb]; try contradiction.
    + cbn [fabs SFabs rank] in H, Pa. lia.
    + rewrite Ra, Rb. cbn [fabs SFabs rank]. lia.
    + rewrite Ra, Rb. clear Ra Rb.
      pose proof (good_exponent _ _ _ Gb) as Lb.
      apply Z.min_le_compat_r. apply Rz_mono.
      cbn [fabs SFabs rank] in H. unfold base in *.
      pose proof (pow2_pos (2 * ea + 2200) ltac:(lia)).
      split; [nia|].
      pose proof (pow2_pos 2200 ltac:(lia)) as P.
      apply Z.mul_le_mono_pos_r with (p := 2 ^ 2200); [assumption|].
      rewrite <- !Z.mul_assoc, <- !pow2_split by lia.
      replace (2 * ea + 2200 + 2200) with ((ea + 2200) + (ea + 2200)) by lia.
      replace (2 * eb + 2200 + 2200) with ((eb + 2200) + (eb + 2200)) by lia.
      rewrite (pow2_split (ea + 2200) (ea + 2200)),
              (pow2_split (eb + 2200) (eb + 2200)) by lia.
      pose proof (pow2_pos (ea + 2200) ltac:(lia)).
      pose proof (pow2_pos (eb + 2200) ltac:(lia)).
      set (x := Zpos ma * 2 ^ (ea + 2200)) in *.
      set (y := Zpos mb * 2 ^ (eb + 2200)) in *.
      assert (0 < x) by (unfold x; nia).
      replace (Zpos ma * (Zpos ma * (2 ^ (ea + 2200) * 2 ^ (ea + 2200)))) with (x * x)
        by (unfold x; ring).
      replace (Zpos mb * (Zpos mb * (2 ^ (eb + 2200) * 2 ^ (eb + 2200)))) with (y * y)
        by (unfold y; ring).
      nia.
Qed.

(** The sum of two non-negative doubles is at least each of them. *)
Lemma dadd_rank a b :
  good a -> good b ->
  good (dadd a b) /\ rank a <= rank (dadd a b) /\ rank b <= rank (dadd a b).
Proof.
  intros Ga Gb.
  pose proof (good_rank_bounds a Ga) as Ba. pose proof (good_rank_bounds b Gb) as Bb.
  destruct a as [sa|[]| |[] ma ea]; try contradiction;
    destruct b as [sb|[]| |[] mb eb]; try contradiction;
    try (unfold dadd, SFadd; split; [first [assumption | exact I]|];
         split; cbn [rank] in *; lia);
    try (unfold dadd, SFadd; destruct sa, sb; cbn [good rank]; repeat split; trivial; lia).
  pose proof (good_exponent false _ _ Ga) as La.
  pose proof (good_exponent false _ _ Gb) as Lb.
    unfold dadd, SFadd. cbn [cond_Zopp].
    set (ez := Z.min ea eb).
    destruct (shl_align_spec ma ea ez) as [Fa _].
    destruct (shl_align_spec mb eb ez) as [Fb _].
    cbv zeta in Fa, Fb. rewrite Fa, Fb.
    replace (Z.min ea ez) with ez by lia. replace (Z.min eb ez) with ez by lia.
    pose proof (pow2_pos (ea - ez) ltac:(lia)). pose proof (pow2_pos (eb - ez) ltac:(lia)).
    set (z := Zpos ma * 2 ^ (ea - ez) + Zpos mb * 2 ^ (eb - ez)).
    assert (Hz : 0 < z) by (unfold z; nia).
    destruct (binary_normalize_rank z ez ltac:(lia)) as [_ R].
    destruct (R Hz) as [G E]. split; [exact G|]. rewrite E.
    assert (V : z * 2 ^ (ez + base) = rank (S754_finite false ma ea) + rank (S754_finite false mb eb)).
    { unfold z, base. cbn [rank]. unfold base.
      rewrite Z.mul_add_distr_r, <- !Z.mul_assoc, <- !pow2_split by lia.
      replace (ea - ez + (ez + 2200)) with (ea + 2200) by lia.
      replace (eb - ez + (ez + 2200)) with (eb + 2200) by lia. reflexivity. }
    rewrite V.
    pose proof (rank_finite_pos ma ea La) as Pa. pose proof (rank_finite_pos mb eb Lb) as Pb.
    destruct Ga as [Ca Bda], Gb as [Cb Bdb].
    pose proof (Rz_exact (Zpos ma) ea ltac:(lia) Ca) as Ea.
    pose proof (Rz_exact (Zpos mb) eb ltac:(lia) Cb) as Eb.
    cbn [rank] in *.
    pose proof (Rz_mono (Zpos ma * 2 ^ (ea + base))
                  (Zpos ma * 2 ^ (ea + base) + Zpos mb * 2 ^ (eb + base)) ltac:(lia)).
    pose proof (Rz_mono (Zpos mb * 2 ^ (eb + base))
                  (Zpos ma * 2 ^ (ea + base) + Zpos mb * 2 ^ (eb + base)) ltac:(lia)).
    lia.
Qed.

(** *** Square roots *)

Lemma nearest_sqrt_mono n1 R1 n2 R2 :
  0 <= R1 -> 0 <= R2 -> nearest_sqrt n1 R1 -> nearest_sqrt n2 R2 -> n1 <= n2 -> R1 <= R2.
Proof. unfold nearest_sqrt. intros. nia. Qed.

Lemma dsqrt_finite m e :
  good (S754_finite false m e) ->
  let e' := sqrt_exp (Zpos m) e in
  exists R,
    dsqrt (S754_finite false m e) = S754_finite false R e' /\
    nearest_sqrt (Zpos m * 2 ^ (e - 2 * e')) (Zpos R) /\
    2 ^ 52 <= Zpos R < 2 ^ 53 /\
    52 <= e - 2 * e' /\ -1074 <= e' <= 971 /\
    good (S754_finite false R e').
Proof.
  intros [C Bd] e'.
  destruct (canonical_bounds (Zpos m) e ltac:(lia) C) as (L & U & N).
  pose proof (Zdigits2_bounds (Zpos m) ltac:(lia)) as Bm.
  pose proof (Zdigits2_pos (Zpos m) ltac:(lia)) as Pm.
  set (d := Zdigits2 (Zpos m)) in *.
  assert (Dd : d <= 53) by (unfold fexp64 in C; lia).
  assert (Ee : e' = (d + e + 1) / 2 - 53) by reflexivity.
  clearbody e'.
  assert (He' : 2 * e' = d + e - 106 \/ 2 * e' = d + e - 105).
  { pose proof (Z.div_mod (d + e + 1) 2 ltac:(lia)).
    pose proof (Z.mod_pos_bound (d + e + 1) 2 ltac:(lia)). lia. }
  assert (Hdiv : e' <= e / 2 - 26).
  { pose proof (Z.div_mod e 2 ltac:(lia)).
    pose proof (Z.mod_pos_bound e 2 ltac:(lia)). lia. }
  assert (Le' : -1074 <= e') by lia.
  unfold dsqrt, SFsqrt, SFsqrt_core_binary.
  change (fexp prec emax) with fexp64. rewrite !Z.div2_div. fold d.
  replace (Z.min (fexp64 ((d + e + 1) / 2)) (e / 2)) with e'
    by (unfold fexp64; lia).
  set (s := e - 2 * e').
  assert (Hs : 52 <= s) by (unfold s; lia).
  replace (match s with 0 => Zpos m | Zpos _ => Z.shiftl (Zpos m) s | Zneg _ => 0 end)
    with (Zpos m * 2 ^ s)
    by (destruct s as [|p|p] eqn:Es; try lia; rewrite Z.shiftl_mul_pow2 by lia; reflexivity).
  set (m' := Zpos m * 2 ^ s).
  assert (Bm' : 2 ^ 104 <= m' <= 2 ^ 106 - 2 ^ 53).
  { unfold m'. pose proof (pow2_pos s ltac:(lia)) as Ps.
    assert (T : Zpos m * 2 ^ s + 2 ^ s <= 2 ^ (d + s)).
    { rewrite pow2_split by lia. nia. }
    split.
    - assert (2 ^ 104 <= 2 ^ (d - 1) * 2 ^ s).
      { rewrite <- pow2_split by lia. apply pow2_le. unfold s. lia. }
      nia.
    - destruct (Z.eq_dec (d + s) 106) as [E6|N6].
      + rewrite E6 in T. pose proof (pow2_le 53 s ltac:(lia)). lia.
      + pose proof (pow2_le (d + s) 105 ltac:(unfold s; lia)).
        change (2 ^ 106) with (2 * 2 ^ 105). change (2 ^ 53) with 9007199254740992.
        pose proof (pow2_le 53 105 ltac:(lia)).
        change (2 ^ 53) with 9007199254740992 in *. lia. }
  pose proof (Z.sqrtrem_spec m' ltac:(lia)) as Sq.
  destruct (Z.sqrtrem m') as [q r]. destruct Sq as [Em Br].
  assert (Bq : 2 ^ 52 <= q < 2 ^ 53).
  { change (2 ^ 104) with (2 ^ 52 * 2 ^ 52) in Bm'.
    change (2 ^ 106) with (2 ^ 53 * 2 ^ 53) in Bm'.
    change (2 ^ 52) with 4503599627370496 in *.
    change (2 ^ 53) with 9007199254740992 in *. nia. }
  rewrite binary_round_aux_eq by lia.
  unfold round_core.
  assert (Dq : Zdigits2 q = 53) by (apply Zdigits2_unique; lia).
  rewrite Dq.
  replace (Z.max 0 (fexp64 (53 + e') - e')) with 0 by (unfold fexp64; lia).
  rewrite Z.add_0_l, Z.add_0_r, rne_code by lia.
  set (R := round_nearest_even q _).
  assert (HR : nearest_sqrt m' R /\ q <= R <= q + 1).
  { unfold R, nearest_sqrt. destruct (Z.eqb_spec r 0) as [->|NZ]; cbn [round_nearest_even].
    - lia.
    - destruct (Z.leb_spec r q); cbn [round_nearest_even]; lia. }
  destruct HR as [HR QR].
  assert (BR : 2 ^ 52 <= R < 2 ^ 53).
  { split; [lia|]. unfold nearest_sqrt in HR.
    destruct (Z.lt_ge_cases R (2 ^ 53)) as [|G]; [assumption|exfalso].
    assert (R = 2 ^ 53) by lia. subst R.
    change (2 ^ 106) with (2 ^ 53 * 2 ^ 53) in Bm'.
    change (2 ^ 53) with 9007199254740992 in *. lia. }
  assert (DR : Zdigits2 R = 53) by (apply Zdigits2_unique; lia).
  rewrite DR.
  replace (Z.max 0 (fexp64 (53 + e') - e')) with 0 by (unfold fexp64; lia).
  change (2 ^ 0) with 1. rewrite Z.div_1_r, Z.add_0_r.
  destruct R as [|pR|pR]; try lia.
  exists pR. unfold pack.
  replace (e' <=? emax - prec) with true
    by (symmetry; apply Z.leb_le; unfold emax, prec; lia).
  repeat split; try assumption; try lia; try apply HR.
  cbn [good]. unfold fexp64. lia.
Qed.

Lemma dsqrt_good a : good a -> good (dsqrt a).
Proof.
  destruct a as [s|[]| |[] m e]; try contradiction; intros G; try exact I.
  destruct (dsqrt_finite m e G) as (R & E & _ & _ & _ & _ & GR).
  rewrite E. exact GR.
Qed.

(** The square root is monotone. *)
Lemma dsqrt_mono a b :
  good a -> good b -> rank a <= rank b -> rank (dsqrt a) <= rank (dsqrt b).
Proof.
  intros Ga Gb H.
  pose proof (good_rank_bounds _ (dsqrt_good a Ga)) as Ba.
  pose proof (good_rank_bounds _ (dsqrt_good b Gb)) as Bb.
  destruct a as [sa|[]| |[] ma ea]; try contradiction.
  - change (dsqrt (S754_zero sa)) with (S754_zero sa). cbn [rank]. lia.
  - destruct b as [sb|[]| |[] mb eb]; try contradiction.
    + cbn [rank] in H. unfold INF in H. lia.
    + destruct Gb as [Cb Bdb]. pose proof (canonical_rank_lt mb eb Cb Bdb).
      cbn [rank] in H. lia.
  - pose proof (good_exponent false _ _ Ga) as La.
    pose proof (rank_finite_pos ma ea La) as Pa.
    destruct b as [sb|[]| |[] mb eb]; try contradiction.
    + cbn [rank] in H, Pa. lia.
    + change (dsqrt (S754_infinity false)) with (S754_infinity false).
      cbn [rank]. cbn [rank] in H. lia.
    + pose proof (good_exponent false _ _ Gb) as Lb.
      destruct (dsqrt_finite ma ea Ga) as (R1 & E1 & N1 & B1 & S1 & X1 & _).
      destruct (dsqrt_finite mb eb Gb) as (R2 & E2 & N2 & B2 & S2 & X2 & _).
      cbv zeta in *. rewrite E1, E2. clear E1 E2 Ba Bb.
      cbn [rank] in *. unfold base in *.
      set (e1 := sqrt_exp (Zpos ma) ea) in *. set (e2 := sqrt_exp (Zpos mb) eb) in *.
      assert (T : Zdigits2 (Zpos ma) + ea <= Zdigits2 (Zpos mb) + eb).
      { pose proof (Zdigits2_mono _ _ (conj Pa H)) as D.
        rewrite !Zdigits2_shift in D by lia. lia. }
      assert (E12 : e1 <= e2).
      { unfold e1, e2, sqrt_exp.
        pose proof (Z.div_le_mono (Zdigits2 (Zpos ma) + ea + 1)
                      (Zdigits2 (Zpos mb) + eb + 1) 2 ltac:(lia) ltac:(lia)). lia. }
      clearbody e1 e2.
      destruct (Z.eq_dec e1 e2) as [<-|NE].
      * apply Z.mul_le_mono_nonneg_r; [apply Z.pow_nonneg; lia|].
        eapply nearest_sqrt_mono; [| |exact N1|exact N2|]; [lia|lia|].
        pose proof (pow2_pos (2 * e1 + 2200) ltac:(lia)) as P.
        apply Z.mul_le_mono_pos_r with (p := 2 ^ (2 * e1 + 2200)); [assumption|].
        rewrite <- !Z.mul_assoc, <- !pow2_split by lia.
        replace (ea - 2 * e1 + (2 * e1 + 2200)) with (ea + 2200) by lia.
        replace (eb - 2 * e1 + (2 * e1 + 2200)) with (eb + 2200) by lia.
        assumption.
      * apply Z.lt_le_incl. apply (scaled_lt_of_exp (Zpos R1) e1 (Zpos R2) e2);
          unfold base; lia.
Qed.

Lemma good_epsilon : good epsilon.
Proof. vm_compute. split; [reflexivity|discriminate]. Qed.

Lemma dsqrt_sq_epsilon : dsqrt (dmul epsilon epsilon) = epsilon.
Proof. vm_compute. reflexivity. Qed.

Lemma finite_good a : is_finite a = true -> is_double a = true -> good (fabs a).
Proof.
  intros F D. apply good_fabs; [assumption|]. intros ->. discriminate.
Qed.

(** The sum of two squares dominates each square. *)
Lemma dot_self_rank dx dy :
  good (fabs dx) -> good (fabs dy) ->
  let S := dadd (dmul dx dx) (dmul dy dy) in
  good S /\ rank (dmul dx dx) <= rank S /\ rank (dmul dy dy) <= rank S.
Proof.
  intros Gx Gy S.
  destruct (dmul_sq_rank dx Gx) as [G1 _], (dmul_sq_rank dy Gy) as [G2 _].
  apply dadd_rank; assumption.
Qed.

(** The divisor of [sine]: when the guard [|A.x - B.x| < epsilon] fails on
    finite points, [|B - A| >= epsilon]. *)
Lemma norm_ge_epsilon P Q :
  finite_point P = true -> finite_point Q = true ->
  dlt (fabs (dsub (x P) (x Q))) epsilon = false ->
  good (norm (point_sub Q P)) /\ dle epsilon (norm (point_sub Q P)) = true.
Proof.
  unfold finite_point. rewrite !andb_true_iff.
  intros [[[FPx FPy] DPx] DPy] [[[FQx FQy] DQx] DQy] G.
  rewrite (dsub_swap_abs (x P) (x Q)) in G.
  set (dx := dsub (x Q) (x P)) in *. set (dy := dsub (y Q) (y P)).
  assert (Gx : good (fabs dx)) by (apply dsub_good; auto using finite_good).
  assert (Gy : good (fabs dy)) by (apply dsub_good; auto using finite_good).
  change (norm (point_sub Q P)) with (dsqrt (dadd (dmul dx dx) (dmul dy dy))).
  destruct (dot_self_rank dx dy Gx Gy) as (GS & Lx & _). cbv zeta in *.
  set (S := dadd (dmul dx dx) (dmul dy dy)) in *.
  pose proof good_epsilon as Ge.
  apply (dlt_false_rank _ _ Gx Ge) in G.
  assert (Ge' : good (fabs epsilon)) by (vm_compute; split; [reflexivity|discriminate]).
  pose proof (dmul_sq_mono epsilon dx Ge' Gx G) as M.
  destruct (dmul_sq_rank epsilon Ge') as [Gee _].
  pose proof (dsqrt_mono (dmul epsilon epsilon) S Gee GS ltac:(lia)) as R.
  rewrite dsqrt_sq_epsilon in R.
  split; [apply dsqrt_good; assumption|].
  apply dle_rank; [assumption|apply dsqrt_good; assumption|assumption].
Qed.

Lemma rank_epsilon : rank epsilon = 7737125245533627 * 2 ^ (-86 + base).
Proof. reflexivity. Qed.

(** A double of magnitude at least [epsilon] is normal, with exponent at
    least -86. *)
Lemma ge_epsilon_normal m e :
  fexp64 (Zdigits2 (Zpos m) + e) = e ->
  rank epsilon <= Zpos m * 2 ^ (e + base) ->
  -86 <= e /\ 2 ^ 52 <= Zpos m < 2 ^ 53.
Proof.
  intros C H. rewrite rank_epsilon in H.
  destruct (canonical_bounds (Zpos m) e ltac:(lia) C) as (L & U & N).
  assert (E : -86 <= e).
  { destruct (Z.le_gt_cases (-86) e) as [|G]; [assumption|exfalso].
    pose proof (scaled_lt_of_exp (Zpos m) e 7737125245533627 (-86)
                  ltac:(lia) ltac:(change (2 ^ 52) with 4503599627370496; lia) G
                  ltac:(unfold base; lia)).
    lia. }
  split; [assumption|]. split; [apply N; lia|assumption].
Qed.

Lemma Zdigits2_ge V k : 0 <= k -> 2 ^ k <= V -> k + 1 <= Zdigits2 V.
Proof.
  intros Hk H. pose proof (pow2_pos k Hk).
  pose proof (Zdigits2_bounds V ltac:(lia)) as Bd.
  destruct (Z.le_gt_cases (k + 1) (Zdigits2 V)); [assumption|].
  pose proof (Zdigits2_pos V ltac:(lia)).
  pose proof (pow2_le (Zdigits2 V) k ltac:(lia)). lia.
Qed.

Lemma Zdigits2_le V k : 0 < V -> V < 2 ^ k -> Zdigits2 V <= k.
Proof.
  intros HV H.
  pose proof (Zdigits2_bounds V HV) as Bd. pose proof (Zdigits2_pos V HV).
  destruct (Z.le_gt_cases (Zdigits2 V) k); [assumption|].
  destruct (Z.le_gt_cases 0 k).
  - pose proof (pow2_le k (Zdigits2 V - 1) ltac:(lia)). lia.
  - rewrite Z.pow_neg_r in H by lia. lia.
Qed.

(** The computed square root of the computed square of [a] is at least
    [|a|], for [|a| >= epsilon]. *)
Lemma dsqrt_sq_ge a :
  good (fabs a) -> rank epsilon <= rank (fabs a) ->
  rank (fabs a) <= rank (dsqrt (dmul a a)).
Proof.
  intros Ga He.
  destruct (dmul_sq_rank a Ga) as [GP RP].
  pose proof (good_rank_bounds _ (dsqrt_good _ GP)) as BS.
  pose proof (good_rank_bounds _ Ga) as BA.
  destruct a as [s|s| |s m e].
  - cbn [fabs SFabs rank] in *. lia.
  - destruct s; change (INF <= INF); apply Z.le_refl.
  - contradiction.
  - cbn [fabs SFabs good rank] in Ga, He |- *. destruct Ga as [C Bd].
    destruct (ge_epsilon_normal m e C He) as (Le & Lm & Um).
    unfold base in *.
    set (w := 2 ^ (2 * e + 2200)) in *.
    assert (Pw : 0 < w) by (apply pow2_pos; lia).
    set (V := Zpos m * Zpos m * w) in *.
    assert (Bmm : 2 ^ 104 <= Zpos m * Zpos m < 2 ^ 106).
    { change (2 ^ 104) with (2 ^ 52 * 2 ^ 52). change (2 ^ 106) with (2 ^ 53 * 2 ^ 53).
      change (2 ^ 52) with 4503599627370496 in *.
      change (2 ^ 53) with 9007199254740992 in *. nia. }
    set (D := Zdigits2 (Zpos m * Zpos m)).
    assert (BD : 105 <= D <= 106).
    { split; [apply (Zdigits2_ge _ 104); lia|apply Zdigits2_le; lia]. }
    assert (DV : Zdigits2 V = D + (2 * e + 2200)).
    { unfold V, w. apply Zdigits2_shift; lia. }
    assert (HV : 0 < V) by (unfold V; nia).
    pose proof (Rz_near V HV) as Near. destruct (Rz_bounds V HV) as [UB LB].
    cbv zeta in UB, LB. rewrite DV in Near, UB, LB.
    replace (Z.max (D + (2 * e + 2200) - 53) 1126) with (D - 53 + (2 * e + 2200)) in * by lia.
    specialize (LB ltac:(lia)).
    replace (Z.max (D + (2 * e + 2200)) (D - 53 + (2 * e + 2200)))
      with (D + (2 * e + 2200)) in UB by lia.
    rewrite pow2_split in Near by lia. fold w in Near.
    set (XP := Rz V) in *.
    assert (PX : 0 < XP).
    { pose proof (pow2_pos (D + (2 * e + 2200) - 1) ltac:(lia)). lia. }
    destruct (dmul (S754_finite s m e) (S754_finite s m e)) as [sP|[]| |[] mP eP] eqn:EP;
      try contradiction.
    + cbn [rank] in RP. unfold INF in RP. lia.
    + change (dsqrt (S754_infinity false)) with (S754_infinity false).
      destruct (canonical_rank_lt m e C Bd). unfold base in *. cbn [rank]. lia.
    + destruct GP as [CP BdP].
      pose proof (canonical_rank_lt mP eP CP BdP) as LtP.
      cbn [rank] in RP. unfold base in *.
      assert (EXP : Zpos mP * 2 ^ (eP + 2200) = XP) by lia. clear RP.
      destruct (dsqrt_finite mP eP (conj CP BdP)) as (R & E1 & NS & BR & S1 & X1 & _).
      cbv zeta in *. rewrite E1. clear E1. cbn [rank]. unfold base.
      destruct (canonical_bounds (Zpos mP) eP ltac:(lia) CP) as (LP & _ & _).
      assert (DX : Zdigits2 XP = Zdigits2 (Zpos mP) + (eP + 2200)).
      { rewrite <- EXP. apply Zdigits2_shift; lia. }
      assert (DXl : D + (2 * e + 2200) <= Zdigits2 XP).
      { pose proof (Zdigits2_ge XP (D + (2 * e + 2200) - 1) ltac:(lia) LB). lia. }
      set (e' := sqrt_exp (Zpos mP) eP) in *.
      assert (Ee' : e <= e').
      { unfold e', sqrt_exp.
        pose proof (Z.div_le_mono (106 + 2 * e) (Zdigits2 (Zpos mP) + eP + 1) 2
                      ltac:(lia) ltac:(lia)) as Q.
        replace (106 + 2 * e) with ((53 + e) * 2) in Q by lia.
        rewrite Z.div_mul in Q by lia. lia. }
      clearbody e'.
      destruct (Z.eq_dec e' e) as [->|NE].
      * apply Z.mul_le_mono_nonneg_r; [apply Z.pow_nonneg; lia|].
        destruct (Z.le_gt_cases (Zpos m) (Zpos R)) as [|G]; [assumption|exfalso].
        unfold nearest_sqrt in NS.
        set (W := Zpos mP * 2 ^ (eP - 2 * e)) in *.
        assert (WX : W * w = XP).
        { unfold W, w. rewrite <- Z.mul_assoc, <- pow2_split by lia.
          rewrite <- EXP. f_equal. f_equal. lia. }
        assert (RR : Zpos R * Zpos R <= (Zpos m - 1) * (Zpos m - 1))
          by (apply Z.mul_le_mono_nonneg; lia).
        assert (HW : W <= Zpos m * Zpos m - Zpos m) by lia.
        assert (HWw : W * w <= (Zpos m * Zpos m - Zpos m) * w)
          by (apply Z.mul_le_mono_nonneg_r; lia).
        assert (XP <= V - Zpos m * w) by (unfold V; lia).
        assert (P53 : 0 < 2 ^ (D - 53)) by (apply pow2_pos; lia).
        assert (M2 : 2 * Zpos m <= 2 ^ (D - 53)).
        { apply Z.mul_le_mono_pos_r with (p := w); [assumption|].
          rewrite Z.abs_neq in Near by lia. lia. }
        pose proof (pow2_le (D - 53) 53 ltac:(lia)) as Q.
        change (2 ^ 53) with (2 * 2 ^ 52) in Q.
        assert (Hm52 : Zpos m = 2 ^ 52) by lia.
        assert (HD : D = 105).
        { unfold D. rewrite Hm52. change (2 ^ 52 * 2 ^ 52) with (2 ^ 104).
          apply Zdigits2_unique; [|lia].
          change (2 ^ (105 - 1)) with (2 ^ 104). change (2 ^ 105) with (2 * 2 ^ 104). lia. }
        rewrite HD in M2. change (2 ^ (105 - 53)) with (2 ^ 52) in M2. lia.
      * apply Z.lt_le_incl.
        apply (scaled_lt_of_exp (Zpos m) e (Zpos R) e'); unfold base; lia.
Qed.

(** *** Quotients of magnitude at most one *)

Lemma compare_cont_spec m c :
  CompareSpec (Zpos m = Zpos c) (Zpos m < Zpos c) (Zpos c < Zpos m)
              (Pos.compare_cont Eq m c).
Proof. change (Pos.compare_cont Eq m c) with (Zpos m ?= Zpos c). apply Z.compare_spec. Qed.

Lemma abs_le_one_bounds r :
  abs_le_one r -> dle (of_Z (-1)) r = true /\ dle r one = true.
Proof.
  destruct r as [s|s| |s m e]; cbn [abs_le_one]; try contradiction.
  - intros _. destruct s; split; reflexivity.
  - intros H.
    assert (E1 : of_Z (-1) = S754_finite true 4503599627370496 (-52)) by reflexivity.
    assert (E2 : one = S754_finite false 4503599627370496 (-52)) by reflexivity.
    assert (E3 : 2 ^ 52 = Zpos 4503599627370496) by reflexivity.
    rewrite E1, E2. rewrite E3 in H. clear E1 E2 E3.
    generalize dependent 4503599627370496%positive. intros c H.
    unfold dle, SFleb. cbn [SFcompare].
    destruct s.
    + split; [|reflexivity].
      destruct (Z.compare_spec (-52) e) as [E|E|E]; try reflexivity; try lia.
      destruct (compare_cont_spec c m); cbn [CompOpp]; try reflexivity. lia.
    + split; [reflexivity|].
      destruct (Z.compare_spec e (-52)) as [E|E|E]; try reflexivity; try lia.
      destruct (compare_cont_spec m c); try reflexivity. lia.
Qed.

Lemma fabs_binary_round_aux s q e l :
  fabs (binary_round_aux prec emax s q e l) = binary_round_aux prec emax false q e l.
Proof.
  unfold binary_round_aux.
  destruct (shr_fexp prec emax q e l) as [mrs' e'].
  destruct (shr_fexp prec emax _ e' loc_Exact) as [mrs'' e''].
  destruct (shr_m mrs''); try reflexivity.
  destruct (e'' <=? emax - prec); reflexivity.
Qed.

Lemma abs_le_one_fabs r : abs_le_one (fabs r) -> abs_le_one r.
Proof. destruct r; auto. Qed.

Lemma Zdigits2_le_pow q k : 0 <= k -> 0 <= q <= 2 ^ k -> Zdigits2 q <= k + 1.
Proof.
  intros Hk [H0 H]. destruct (Z.eq_dec q 0) as [->|N]; [simpl; lia|].
  apply Zdigits2_le; [lia|]. rewrite Z.pow_add_r by lia. change (2 ^ 1) with 2.
  pose proof (pow2_pos k Hk). lia.
Qed.

Lemma round_core_le_one q e l :
  0 <= q -> e <= -53 -> 4 * q + loc_code l <= 2 ^ (2 - e) ->
  abs_le_one (round_core false q e l).
Proof.
  intros Hq He H.
  assert (C : 0 <= loc_code l <= 3) by (destruct l as [|[]]; cbn [loc_code]; lia).
  assert (Q : q <= 2 ^ (- e)).
  { replace (2 - e) with (2 + - e) in H by lia. rewrite pow2_split in H by lia.
    change (2 ^ 2) with 4 in H. lia. }
  unfold round_core.
  pose proof (Zdigits2_le_pow q (- e) ltac:(lia) ltac:(lia)) as Dq.
  set (n := Z.max 0 (fexp64 (Zdigits2 q + e) - e)).
  assert (Hn : 0 <= n /\ e + n <= -52) by (unfold n, fexp64; lia).
  set (m1 := rne (4 * q + loc_code l) (n + 2)).
  assert (N1 : 0 <= m1) by (apply rne_nonneg; lia).
  assert (U1 : m1 <= 2 ^ (- (e + n))).
  { apply rne_le; [lia|]. rewrite <- pow2_split by lia.
    replace (- (e + n) + (n + 2)) with (2 - e) by lia. assumption. }
  pose proof (Zdigits2_le_pow m1 (- (e + n)) ltac:(lia) ltac:(lia)) as D1.
  set (n2 := Z.max 0 (fexp64 (Zdigits2 m1 + (e + n)) - (e + n))).
  assert (Hn2 : 0 <= n2 /\ e + n + n2 <= -52) by (unfold n2, fexp64; lia).
  pose proof (pow2_pos n2 ltac:(lia)) as P2.
  assert (U2 : m1 / 2 ^ n2 <= 2 ^ (- (e + n + n2))).
  { apply Z.div_le_upper_bound; [lia|].
    rewrite <- pow2_split by lia.
    replace (n2 + - (e + n + n2)) with (- (e + n)) by lia. assumption. }
  assert (N2 : 0 <= m1 / 2 ^ n2) by (apply Z.div_pos; lia).
  set (e2 := e + n + n2) in *. set (m2 := m1 / 2 ^ n2) in *.
  destruct m2 as [|p|p]; try lia; unfold pack.
  - exact I.
  - replace (e2 <=? emax - prec) with true
      by (symmetry; apply Z.leb_le; unfold emax, prec; lia).
    cbn [abs_le_one].
    destruct (Z.eq_dec e2 (-52)) as [E|E]; [right|left; lia].
    split; [assumption|]. rewrite E in U2. exact U2.
Qed.

Lemma new_location_code k r :
  0 <= loc_code (new_location k r) <= 3 /\ (r = 0 -> loc_code (new_location k r) = 0).
Proof.
  unfold new_location, new_location_even, new_location_odd.
  destruct (Z.even k); destruct (Z.eqb_spec r 0) as [->|N].
  - cbn [loc_code]. lia.
  - split; [|contradiction]. destruct (2 * r ?= k); cbn [loc_code]; lia.
  - cbn [loc_code]. lia.
  - split; [|contradiction]. destruct (2 * r + 1 ?= k); cbn [loc_code]; lia.
Qed.

(** Dividing a finite double by a double of at least its magnitude gives
    a result of magnitude at most 1. *)
Lemma ddiv_le_one a N :
  good (fabs a) -> is_finite a = true -> good N -> 0 < rank N ->
  rank (fabs a) <= rank N -> abs_le_one (ddiv a N).
Proof.
  intros Ga Fa GN PN H.
  destruct N as [sN|[]| |[] m2 e2]; try contradiction.
  - cbn [rank] in PN. lia.
  - destruct a as [sa|sa| |sa m1 e1]; try discriminate; exact I.
  - destruct a as [sa|sa| |sa m1 e1]; try discriminate; [exact I|].
    cbn [fabs SFabs good] in Ga. destruct Ga as [C1 B1], GN as [C2 B2].
    destruct (canonical_bounds (Zpos m1) e1 ltac:(lia) C1) as (L1 & _ & _).
    destruct (canonical_bounds (Zpos m2) e2 ltac:(lia) C2) as (L2 & _ & _).
    cbn [fabs SFabs rank] in H. unfold base in *.
    unfold ddiv, SFdiv, SFdiv_core_binary.
    change (fexp prec emax) with fexp64.
    set (d1 := Zdigits2 (Zpos m1)). set (d2 := Zdigits2 (Zpos m2)).
    assert (T : d1 + e1 <= d2 + e2).
    { pose proof (pow2_pos (e1 + 2200) ltac:(lia)).
      pose proof (Zdigits2_mono (Zpos m1 * 2 ^ (e1 + 2200)) (Zpos m2 * 2 ^ (e2 + 2200))
                    ltac:(nia)) as D.
      rewrite !Zdigits2_shift in D by lia. unfold d1, d2. lia. }
    set (e' := Z.min (fexp64 (d1 + e1 - (d2 + e2))) (e1 - e2)).
    assert (He' : e' <= -53 /\ e' <= e1 - e2) by (unfold e', fexp64; lia).
    set (s := e1 - e2 - e').
    replace (match s with 0 => Zpos m1 | Zpos _ => Z.shiftl (Zpos m1) s | Zneg _ => 0 end)
      with (Zpos m1 * 2 ^ s)
      by (destruct s as [|p|p] eqn:Es; try lia;
          rewrite Z.shiftl_mul_pow2 by lia; reflexivity).
    set (m' := Zpos m1 * 2 ^ s).
    assert (Hm' : 0 < m' <= Zpos m2 * 2 ^ (- e')).
    { unfold m'. pose proof (pow2_pos s ltac:(unfold s; lia)).
      split; [nia|].
      pose proof (pow2_pos (e2 + 2200) ltac:(lia)) as P.
      assert (Id : 2 ^ s * 2 ^ (e2 + 2200) = 2 ^ (e1 + 2200) * 2 ^ (- e')).
      { rewrite <- !pow2_split by (unfold s; lia). f_equal. unfold s. lia. }
      apply Z.mul_le_mono_pos_r with (p := 2 ^ (e2 + 2200)); [assumption|].
      rewrite <- Z.mul_assoc, Id, Z.mul_assoc.
      replace (Zpos m2 * 2 ^ (- e') * 2 ^ (e2 + 2200))
        with (Zpos m2 * 2 ^ (e2 + 2200) * 2 ^ (- e')) by ring.
      apply Z.mul_le_mono_nonneg_r; [apply Z.pow_nonneg; lia|assumption]. }
    pose proof (Z_div_mod m' (Zpos m2) ltac:(lia)) as DM.
    destruct (Z.div_eucl m' (Zpos m2)) as [q r]. destruct DM as [Em Br].
    apply abs_le_one_fabs. rewrite fabs_binary_round_aux.
    rewrite binary_round_aux_eq by nia.
    destruct (new_location_code (Zpos m2) r) as [Cl Cz].
    pose proof (pow2_pos (- e') ltac:(lia)) as Pe.
    apply round_core_le_one; [nia|lia|].
    replace (2 - e') with (2 + - e') by lia. rewrite pow2_split by lia.
    change (2 ^ 2) with 4.
    destruct (Z.eq_dec r 0) as [Z0|NZ].
    + rewrite (Cz Z0). nia.
    + assert (q < 2 ^ (- e')) by nia. lia.
Qed.

(** *** The quotient of [sine] and the divisors of the intercepts *)

Lemma finite_point_good P :
  finite_point P = true ->
  is_finite (x P) = true /\ is_finite (y P) = true /\
  good (fabs (x P)) /\ good (fabs (y P)).
Proof.
  unfold finite_point. rewrite !andb_true_iff. intros [[[Fx Fy] Dx] Dy].
  auto using finite_good.
Qed.

(** The distance between finite points is a non-negative double or
    [+infinity], never NaN. *)
Lemma norm_good P Q :
  finite_point P = true -> finite_point Q = true -> good (norm (point_sub Q P)).
Proof.
  intros HP HQ.
  destruct (finite_point_good P HP) as (FPx & FPy & GPx & GPy).
  destruct (finite_point_good Q HQ) as (FQx & FQy & GQx & GQy).
  apply dsqrt_good.
  apply (dot_self_rank (dsub (x Q) (x P)) (dsub (y Q) (y P))); apply dsub_good; assumption.
Qed.

Lemma rank_epsilon_pos : 0 < rank epsilon.
Proof. rewrite rank_epsilon. unfold base. apply Z.mul_pos_pos; [lia|apply pow2_pos; lia]. Qed.

Lemma is_finite_dsub_swap a b : is_finite (dsub a b) = is_finite (dsub b a).
Proof.
  destruct (dsub_swap a b) as [E|[E1 E2]].
  - rewrite E. destruct (dsub b a); reflexivity.
  - rewrite E1, E2. reflexivity.
Qed.

(** The quotient computed by [sine] has magnitude at most 1. *)
Lemma sine_quotient P Q num :
  finite_point P = true -> finite_point Q = true ->
  dlt (fabs (dsub (x P) (x Q))) epsilon = false ->
  num = dsub (y Q) (y P) \/ num = dsub (y P) (y Q) ->
  is_finite (dsub (y Q) (y P)) = true ->
  abs_le_one (ddiv num (norm (point_sub Q P))).
Proof.
  intros HP HQ G Hnum Fin.
  destruct (norm_ge_epsilon P Q HP HQ G) as [GN LN].
  apply (dle_rank _ _ good_epsilon GN) in LN.
  pose proof rank_epsilon_pos as Pe.
  destruct (finite_point_good P HP) as (FPx & FPy & GPx & GPy).
  destruct (finite_point_good Q HQ) as (FQx & FQy & GQx & GQy).
  set (dx := dsub (x Q) (x P)). set (dy := dsub (y Q) (y P)) in *.
  assert (Gx : good (fabs dx)) by (apply dsub_good; assumption).
  assert (Gy : good (fabs dy)) by (apply dsub_good; assumption).
  assert (Ab : fabs num = fabs dy).
  { destruct Hnum as [-> | ->]; [reflexivity|apply dsub_swap_abs]. }
  assert (Fn : is_finite num = true).
  { destruct Hnum as [-> | ->]; [assumption|]. rewrite is_finite_dsub_swap. assumption. }
  assert (Le : rank (fabs dy) <= rank (norm (point_sub Q P))).
  { destruct (Z.lt_ge_cases (rank (fabs dy)) (rank epsilon)) as [Lt|Ge]; [lia|].
    pose proof (dsqrt_sq_ge dy Gy Ge) as S1.
    destruct (dot_self_rank dx dy Gx Gy) as (GS & _ & Ly). cbv zeta in GS, Ly.
    destruct (dmul_sq_rank dy Gy) as [Gyy _].
    pose proof (dsqrt_mono _ _ Gyy GS Ly) as S2.
    change (norm (point_sub Q P)) with (dsqrt (dadd (dmul dx dx) (dmul dy dy))). lia. }
  apply ddiv_le_one; try assumption; rewrite ?Ab; try assumption; lia.
Qed.

(** The divisor of an intercept: when the guard [|a - b| < epsilon] fails
    on finite doubles, [|b - a| >= epsilon]. *)
Lemma guard_divisor a b :
  is_finite a = true -> is_finite b = true ->
  good (fabs a) -> good (fabs b) ->
  dlt (fabs (dsub a b)) epsilon = false ->
  dle epsilon (fabs (dsub b a)) = true.
Proof.
  intros Fa Fb Ga Gb G.
  rewrite (dsub_swap_abs a b) in G.
  assert (Gd : good (fabs (dsub b a))) by (apply dsub_good; assumption).
  apply (dle_rank _ _ good_epsilon Gd).
  apply (dlt_false_rank _ _ Gd good_epsilon). exact G.
Qed.

(** ** The claims *)

(** C1. [crosses(C)] is true iff [C] is approximately equal to [A] or to
    [B], or the scaled test [||d| - ab*bc| < epsilon*ab*bc] holds with
    [d = (B - A) . (C - B)], [ab = |B - A|], [bc = |C - B|]; the point
    shortcut comes first, so the result is the disjunction of the three
    tests with the shortcut in front. *)
Theorem crosses_iff (l : line) (C : point) :
  let d := dot (point_sub (B l) (A l)) (point_sub C (B l)) in
  let ab := norm (point_sub (B l) (A l)) in
  let bc := norm (point_sub C (B l)) in
  (crosses l C = true <->
     point_eq C (A l) = true \/ point_eq C (B l) = true \/
     dlt (fabs (dsub (fabs d) (dmul ab bc))) (dmul (dmul epsilon ab) bc) = true)
  /\ crosses l C =
     point_eq C (A l) || point_eq C (B l) ||
     dlt (fabs (dsub (fabs d) (dmul ab bc))) (dmul (dmul epsilon ab) bc).
Proof.
  intros d ab bc.
  assert (E : crosses l C =
     point_eq C (A l) || point_eq C (B l) ||
     dlt (fabs (dsub (fabs d) (dmul ab bc))) (dmul (dmul epsilon ab) bc)).
  { unfold crosses, scaled_test. fold d ab bc.
    rewrite (point_eq_sym C (A l)), (point_eq_sym C (B l)).
    destruct (point_eq (A l) C || point_eq (B l) C); reflexivity. }
  split; [|exact E].
  rewrite E, !orb_true_iff. tauto.
Qed.

(** C2. The docstring of [operator==] on lines promises "true if r and s
    are the same line", a symmetric notion, and the claim asks for that
    symmetry on validly constructed lines.  The code tests only the points
    of [s] against [r], and the answer depends on the order:
    with [r] the line (0,0)-(1,0) and [s] the line (0,0)-(0,2e-10), both
    validly constructed, [r == s] is true and [s == r] is false; the same
    happens with [r] against the diagonal through (1000000, 1) and
    (1000001, 2).  In each pair the second line is not the first, and
    [r == s] says it is. *)
Theorem line_eq_not_symmetric :
  line_ctor (A long_r) (B long_r) = Returned long_r /\
  line_ctor (A short_s) (B short_s) = Returned short_s /\
  line_ctor (A far_diagonal) (B far_diagonal) = Returned far_diagonal /\
  line_eq long_r short_s = true /\ line_eq short_s long_r = false /\
  line_eq long_r far_diagonal = true /\ line_eq far_diagonal long_r = false /\
  ~ (line_eq long_r short_s = true <-> line_eq short_s long_r = true) /\
  ~ (line_eq long_r far_diagonal = true <-> line_eq far_diagonal long_r = true).
Proof.
  assert (E1 : line_eq long_r short_s = true) by (vm_compute; reflexivity).
  assert (E2 : line_eq short_s long_r = false) by (vm_compute; reflexivity).
  assert (E3 : line_eq long_r far_diagonal = true) by (vm_compute; reflexivity).
  assert (E4 : line_eq far_diagonal long_r = false) by (vm_compute; reflexivity).
  repeat split; try assumption; try (vm_compute; reflexivity).
  - intros [H _]. rewrite E2 in H. specialize (H E1). discriminate.
  - intros [H _]. rewrite E4 in H. specialize (H E3). discriminate.
Qed.

(** C3, as the source computes it: on the line through (0, 5) and (3, 5)
    [sine] is 0, [x_intercept] is the largest finite double, [y_intercept]
    is 5, [crosses((-7, 5))] is true and [crosses((-7, 5.0000001))] is
    true as well. *)
Theorem scenario_S1 :
  line_ctor (ipoint 0 5) (ipoint 3 5) = Returned S1_line /\
  sine S1_line = of_Z 0 /\
  x_intercept S1_line = DBL_MAX /\
  y_intercept S1_line = of_Z 5 /\
  crosses S1_line (ipoint (-7) 5) = true /\
  crosses S1_line S1_near = true.
Proof. vm_compute. repeat split; reflexivity. Qed.

(** C3 fails as stated: [crosses((-7, 5.0000001))] is not false. *)
Lemma scenario_S1_near_not_false : crosses S1_line S1_near <> false.
Proof. vm_compute. discriminate. Qed.

(** C4. Construction aborts when [|B - A| < epsilon], returns the line
    holding both points verbatim when [|B - A| >= epsilon], and has no
    other outcome; for finite points one of the two cases applies; S6
    aborts. *)
Theorem line_ctor_spec (P Q : point) :
  (dlt (norm (point_sub Q P)) epsilon = true -> line_ctor P Q = Aborted) /\
  (dle epsilon (norm (point_sub Q P)) = true ->
     line_ctor P Q = Returned (mkline P Q)) /\
  (line_ctor P Q = Aborted \/ line_ctor P Q = Returned (mkline P Q)) /\
  (finite_point P = true -> finite_point Q = true ->
     dlt (norm (point_sub Q P)) epsilon = true \/
     dle epsilon (norm (point_sub Q P)) = true) /\
  line_ctor S6_P S6_Q = Aborted.
Proof.
  unfold line_ctor, point_neq, point_eq.
  repeat split.
  - intros ->. reflexivity.
  - intros G. rewrite (dle_not_dlt _ _ G). reflexivity.
  - destruct (dlt _ epsilon); auto.
  - intros HP HQ. pose proof (norm_good P Q HP HQ) as GN.
    destruct (dlt (norm (point_sub Q P)) epsilon) eqn:E; [auto|right].
    apply (dle_rank _ _ good_epsilon GN).
    apply (dlt_false_rank _ _ GN good_epsilon). exact E.
Qed.

Lemma line_ctor_spec_witness :
  line_ctor S6_P S6_Q = Aborted /\
  line_ctor (ipoint 0 5) (ipoint 3 5) = Returned (mkline (ipoint 0 5) (ipoint 3 5)) /\
  (dlt (norm (point_sub (ipoint 3 5) (ipoint 0 5))) epsilon = true \/
   dle epsilon (norm (point_sub (ipoint 3 5) (ipoint 0 5))) = true).
Proof.
  split; [|split].
  - apply (proj1 (line_ctor_spec S6_P S6_Q)). reflexivity.
  - apply (proj1 (proj2 (line_ctor_spec (ipoint 0 5) (ipoint 3 5)))). reflexivity.
  - apply (proj1 (proj2 (proj2 (proj2 (line_ctor_spec (ipoint 0 5) (ipoint 3 5))))));
      reflexivity.
Defined.

(** C5, on the inputs where it holds: a vertical line has sine exactly
    1.0, which is not -1.0; a non-vertical line through finite points
    whose difference [B.y - A.y] does not overflow has its sine in
    [[-1, 1]]. *)
Theorem sine_range (l : line) :
  (dlt (fabs (dsub (x (A l)) (x (B l)))) epsilon = true -> sine l = one) /\
  one <> of_Z (-1) /\
  (finite_point (A l) = true -> finite_point (B l) = true ->
   is_finite (dsub (y (B l)) (y (A l))) = true ->
   dlt (fabs (dsub (x (A l)) (x (B l)))) epsilon = false ->
   dle (of_Z (-1)) (sine l) = true /\ dle (sine l) one = true).
Proof.
  split; [|split].
  - unfold sine. intros ->. reflexivity.
  - discriminate.
  - intros HA HB Fin G. apply abs_le_one_bounds.
    unfold sine. rewrite G.
    destruct (dgt (x (B l)) (x (A l)));
      apply (sine_quotient (A l) (B l)); auto.
Qed.

Lemma sine_range_witness :
  sine (mkline (ipoint 2 0) (ipoint 2 9)) = one /\
  dle (of_Z (-1)) (sine (mkline (ipoint 1 1) (ipoint 0 0))) = true /\
  dle (sine (mkline (ipoint 1 1) (ipoint 0 0))) one = true.
Proof.
  split.
  - apply (proj1 (sine_range (mkline (ipoint 2 0) (ipoint 2 9)))). reflexivity.
  - apply (proj2 (proj2 (sine_range (mkline (ipoint 1 1) (ipoint 0 0)))));
      reflexivity.
Defined.

(** C5 fails as stated: the line through (0, 1e308) and (1, -1e308) is
    validly constructed from finite points and is not vertical, yet
    [B.y - A.y] overflows and [sine] returns NaN, which is not in
    [[-1, 1]]. *)
Lemma sine_overflow_not_in_range :
  line_ctor (A steep_line) (B steep_line) = Returned steep_line /\
  finite_point (A steep_line) = true /\ finite_point (B steep_line) = true /\
  dlt (fabs (dsub (x (A steep_line)) (x (B steep_line)))) epsilon = false /\
  sine steep_line = S754_nan /\
  ~ (dle (of_Z (-1)) (sine steep_line) = true /\ dle (sine steep_line) one = true).
Proof.
  repeat split; try (vm_compute; reflexivity).
  intros [H _]. vm_compute in H. discriminate.
Qed.

(** C6. For a non-vertical pair of distinct points the lines built from
    [(P, Q)] and from [(Q, P)] have the same sine. *)
Theorem sine_swap (P Q : point) (l1 l2 : line) :
  line_ctor P Q = Returned l1 ->
  line_ctor Q P = Returned l2 ->
  dle epsilon (fabs (dsub (x P) (x Q))) = true ->
  sine l1 = sine l2.
Proof.
  intros H1 H2 G. unfold line_ctor in H1, H2.
  destruct (point_neq P Q); [|discriminate].
  destruct (point_neq Q P); [|discriminate].
  injection H1 as <-. injection H2 as <-.
  apply sine_swap_raw, dle_not_dlt, G.
Qed.

Lemma sine_swap_witness :
  sine (mkline (ipoint 0 0) (ipoint 1 1)) = sine (mkline (ipoint 1 1) (ipoint 0 0)).
Proof. apply (sine_swap (ipoint 0 0) (ipoint 1 1)); reflexivity. Defined.

(** C7, as the source has it: [x_intercept] returns the largest finite
    double when [|A.y - B.y| < epsilon] and [A.x - m' * A.y] with
    [m' = (B.x - A.x) / (B.y - A.y)] otherwise. *)
Theorem x_intercept_cases (l : line) :
  x_intercept l =
  if dlt (fabs (dsub (y (A l)) (y (B l)))) epsilon then DBL_MAX
  else dsub (x (A l))
            (dmul (ddiv (dsub (x (B l)) (x (A l))) (dsub (y (B l)) (y (A l))))
                  (y (A l))).
Proof. reflexivity. Qed.

(** C7 fails as stated: the second branch can itself produce the largest
    finite double.  The line through (DBL_MAX, 0) and (0, 1) is validly
    constructed and not horizontal, and meets the x axis at DBL_MAX. *)
Lemma x_intercept_sentinel_not_exact :
  line_ctor (A far_line) (B far_line) = Returned far_line /\
  ~ (x_intercept far_line = DBL_MAX <->
     dlt (fabs (dsub (y (A far_line)) (y (B far_line)))) epsilon = true).
Proof.
  split; [vm_compute; reflexivity|].
  intros [H _].
  assert (E : x_intercept far_line = DBL_MAX) by (vm_compute; reflexivity).
  apply H in E. vm_compute in E. discriminate.
Qed.

(** C8. Point equality is reflexive on finite points and symmetric, and it
    is not transitive. *)
Theorem point_eq_refl_sym_not_trans (P Q : point) :
  finite_point P = true ->
  point_eq P P = true /\
  point_eq P Q = point_eq Q P /\
  exists P' Q' R',
    finite_point P' = true /\ finite_point Q' = true /\ finite_point R' = true /\
    point_eq P' Q' = true /\ point_eq Q' R' = true /\ point_eq P' R' = false.
Proof.
  intros HP. destruct (finite_point_good _ HP) as (Hx & Hy & _).
  split; [apply point_eq_refl; assumption|].
  split; [apply point_eq_sym|].
  exists T_P, T_Q, T_R. vm_compute. repeat split; reflexivity.
Qed.

Lemma point_eq_refl_sym_not_trans_witness :
  point_eq T_Q T_Q = true /\
  point_eq T_Q T_R = point_eq T_R T_Q /\
  exists P' Q' R',
    finite_point P' = true /\ finite_point Q' = true /\ finite_point R' = true /\
    point_eq P' Q' = true /\ point_eq Q' R' = true /\ point_eq P' R' = false.
Proof. apply (point_eq_refl_sym_not_trans T_Q T_R). reflexivity. Defined.

(** C9. On finite points every division of a query has a divisor of
    magnitude at least [epsilon], by the guard of its branch alone:
    [sine] divides by [|B - A|] only when [|A.x - B.x| < epsilon] fails,
    [x_intercept] by [B.y - A.y] only when [|A.y - B.y| < epsilon] fails,
    [y_intercept] by [B.x - A.x] only when [|A.x - B.x| < epsilon] fails;
    the other branches return a constant.  No construction precondition
    is assumed. *)
Theorem divisors_bounded (l : line) :
  finite_point (A l) = true -> finite_point (B l) = true ->
  (dlt (fabs (dsub (x (A l)) (x (B l)))) epsilon = false ->
     (sine l = ddiv (dsub (y (B l)) (y (A l))) (norm (point_sub (B l) (A l))) \/
      sine l = ddiv (dsub (y (A l)) (y (B l))) (norm (point_sub (B l) (A l)))) /\
     dle epsilon (norm (point_sub (B l) (A l))) = true) /\
  (dlt (fabs (dsub (y (A l)) (y (B l)))) epsilon = false ->
     x_intercept l =
       dsub (x (A l))
            (dmul (ddiv (dsub (x (B l)) (x (A l))) (dsub (y (B l)) (y (A l))))
                  (y (A l))) /\
     dle epsilon (fabs (dsub (y (B l)) (y (A l)))) = true) /\
  (dlt (fabs (dsub (x (A l)) (x (B l)))) epsilon = false ->
     y_intercept l =
       dsub (y (A l))
            (dmul (ddiv (dsub (y (B l)) (y (A l))) (dsub (x (B l)) (x (A l))))
                  (x (A l))) /\
     dle epsilon (fabs (dsub (x (B l)) (x (A l)))) = true) /\
  (dlt (fabs (dsub (x (A l)) (x (B l)))) epsilon = true ->
     sine l = one /\ y_intercept l = DBL_MAX) /\
  (dlt (fabs (dsub (y (A l)) (y (B l)))) epsilon = true ->
     x_intercept l = DBL_MAX).
Proof.
  intros HA HB.
  destruct (finite_point_good _ HA) as (FAx & FAy & GAx & GAy).
  destruct (finite_point_good _ HB) as (FBx & FBy & GBx & GBy).
  split; [intros G; split|].
  { unfold sine. rewrite G. destruct (dgt (x (B l)) (x (A l))); auto. }
  { apply (norm_ge_epsilon (A l) (B l)); assumption. }
  split; [intros G; split|].
  { unfold x_intercept. rewrite G. reflexivity. }
  { apply guard_divisor; assumption. }
  split; [intros G; split|].
  { unfold y_intercept. rewrite G. reflexivity. }
  { apply guard_divisor; assumption. }
  split; [intros G; split|intros G].
  - unfold sine. rewrite G. reflexivity.
  - unfold y_intercept. rewrite G. reflexivity.
  - unfold x_intercept. rewrite G. reflexivity.
Qed.

Lemma divisors_bounded_witness :
  dle epsilon (norm (point_sub (ipoint 1 1) (ipoint 0 0))) = true /\
  dle epsilon (fabs (dsub (of_Z 1) (of_Z 0))) = true /\
  x_intercept (mkline (ipoint 0 5) (ipoint 3 5)) = DBL_MAX.
Proof.
  split; [|split].
  - apply (proj1 (divisors_bounded (mkline (ipoint 0 0) (ipoint 1 1)) eq_refl eq_refl)).
    reflexivity.
  - apply (proj1 (proj2 (divisors_bounded (mkline (ipoint 0 0) (ipoint 1 1))
                           eq_refl eq_refl))).
    reflexivity.
  - apply (proj2 (proj2 (proj2 (proj2 (divisors_bounded (mkline (ipoint 0 5) (ipoint 3 5))
                                         eq_refl eq_refl))))).
    reflexivity.
Defined.

(** C10. The line through (0, 0) and (8e-11, 8e-11) is validly
    constructed, with [|B - A|] between 1.13e-10 and 1.14e-10, although
    both coordinate differences are below [epsilon]; and every line with
    both differences below [epsilon] has both intercepts equal to the
    largest finite double and sine 1.0. *)
Theorem degenerate_diagonal (l : line) :
  dlt (fabs (dsub (x (A l)) (x (B l)))) epsilon = true ->
  dlt (fabs (dsub (y (A l)) (y (B l)))) epsilon = true ->
  (x_intercept l = DBL_MAX /\ y_intercept l = DBL_MAX /\ sine l = one) /\
  line_ctor (ipoint 0 0) tiny_B = Returned tiny_line /\
  dlt (fabs (dsub (x (A tiny_line)) (x (B tiny_line)))) epsilon = true /\
  dlt (fabs (dsub (y (A tiny_line)) (y (B tiny_line)))) epsilon = true /\
  dle epsilon (norm (point_sub (B tiny_line) (A tiny_line))) = true /\
  dlt (decimal 113 1000000000000) (norm (point_sub (B tiny_line) (A tiny_line))) = true /\
  dlt (norm (point_sub (B tiny_line) (A tiny_line))) (decimal 114 1000000000000) = true.
Proof.
  intros Gx Gy. split.
  - unfold x_intercept, y_intercept, sine. rewrite Gx, Gy. auto.
  - vm_compute. repeat split; reflexivity.
Qed.

Lemma degenerate_diagonal_witness :
  x_intercept tiny_line = DBL_MAX /\ y_intercept tiny_line = DBL_MAX /\
  sine tiny_line = one.
Proof. apply (degenerate_diagonal tiny_line); reflexivity. Defined.

(** ** Further properties of [line.h] *)

Lemma dmul_comm a b : dmul a b = dmul b a.
Proof.
  destruct a as [sa|sa| |sa ma ea], b as [sb|sb| |sb mb eb];
    unfold dmul, SFmul; try reflexivity; try (rewrite (xorb_comm sa sb); reflexivity).
  rewrite (xorb_comm sa sb), (Pos.mul_comm ma mb), (Z.add_comm ea eb). reflexivity.
Qed.

(** The counterpart of [norm_ge_epsilon] for the [y] coordinates. *)
Lemma norm_ge_epsilon_y P Q :
  finite_point P = true -> finite_point Q = true ->
  dlt (fabs (dsub (y P) (y Q))) epsilon = false ->
  dle epsilon (norm (point_sub Q P)) = true.
Proof.
  intros HP HQ G.
  destruct (finite_point_good P HP) as (FPx & FPy & GPx & GPy).
  destruct (finite_point_good Q HQ) as (FQx & FQy & GQx & GQy).
  rewrite (dsub_swap_abs (y P) (y Q)) in G.
  set (dx := dsub (x Q) (x P)). set (dy := dsub (y Q) (y P)) in *.
  assert (Gx : good (fabs dx)) by (apply dsub_good; assumption).
  assert (Gy : good (fabs dy)) by (apply dsub_good; assumption).
  change (norm (point_sub Q P)) with (dsqrt (dadd (dmul dx dx) (dmul dy dy))).
  destruct (dot_self_rank dx dy Gx Gy) as (GS & _ & Ly). cbv zeta in *.
  pose proof good_epsilon as Ge.
  apply (dlt_false_rank _ _ Gy Ge) in G.
  assert (Ge' : good (fabs epsilon)) by (vm_compute; split; [reflexivity|discriminate]).
  pose proof (dmul_sq_mono epsilon dy Ge' Gy G) as M.
  destruct (dmul_sq_rank epsilon Ge') as [Gee _].
  pose proof (dsqrt_mono (dmul epsilon epsilon) _ Gee GS ltac:(lia)) as R.
  rewrite dsqrt_sq_epsilon in R.
  apply dle_rank; [assumption|apply dsqrt_good; assumption|assumption].
Qed.

(** A difference of finite doubles that passes no guard is a non-zero
    finite double or an infinity. *)
Lemma guard_false_shape a b :
  is_finite a = true -> is_finite b = true ->
  good (fabs a) -> good (fabs b) ->
  dlt (fabs (dsub a b)) epsilon = false ->
  exists s, dsub b a = S754_infinity s \/ exists m e, dsub b a = S754_finite s m e.
Proof.
  intros Fa Fb Ga Gb G.
  rewrite (dsub_swap_abs a b) in G.
  assert (Gd : good (fabs (dsub b a))) by (apply dsub_good; assumption).
  apply (dlt_false_rank _ _ Gd good_epsilon) in G.
  pose proof rank_epsilon_pos.
  destruct (dsub b a) as [s|s| |s m e].
  - cbn [fabs SFabs rank] in G. lia.
  - exists s. auto.
  - contradiction.
  - exists s. right. eauto.
Qed.

Lemma ddiv_zero_shape s d :
  (d = S754_infinity s \/ exists m e, d = S754_finite s m e) ->
  ddiv (S754_zero false) d = S754_zero s.
Proof. intros [-> | (m & e & ->)]; reflexivity. Qed.

Lemma dmul_zero_finite s a :
  is_finite a = true -> exists t, dmul (S754_zero s) a = S754_zero t.
Proof.
  destruct a as [sa|sa| |sa m e]; try discriminate; intros _; eexists; reflexivity.
Qed.

Lemma dsub_zero_r a t :
  is_finite a = true ->
  fabs (dsub a (S754_zero t)) = fabs a /\
  (a <> S754_zero true -> dsub a (S754_zero t) = a).
Proof.
  destruct a as [sa|sa| |sa m e]; try discriminate; intros _.
  - destruct sa, t; split; try reflexivity; intros H; try reflexivity; congruence.
  - split; reflexivity.
Qed.

(** The intercept formula [p - (0 / d) * q] gives back [p]. *)
Lemma intercept_flat p q d s :
  is_finite p = true -> is_finite q = true ->
  (d = S754_infinity s \/ exists m e, d = S754_finite s m e) ->
  fabs (dsub p (dmul (ddiv (S754_zero false) d) q)) = fabs p /\
  (p <> S754_zero true -> dsub p (dmul (ddiv (S754_zero false) d) q) = p).
Proof.
  intros Fp Fq Hd. rewrite (ddiv_zero_shape s d Hd).
  destruct (dmul_zero_finite s q Fq) as [t ->].
  apply dsub_zero_r. assumption.
Qed.

(** *** Vectors, distances and the constructor *)

Lemma good_positive_shape N :
  good N -> 0 < rank N ->
  N = S754_infinity false \/ exists m e, N = S754_finite false m e.
Proof.
  destruct N as [s|[]| |[] m e]; try contradiction; intros _ H.
  - cbn [rank] in H. lia.
  - auto.
  - right. eauto.
Qed.

Lemma dle_epsilon_rank a :
  good (fabs a) -> dle epsilon (fabs a) = true -> rank epsilon <= rank (fabs a).
Proof. intros G H. apply (dle_rank _ _ good_epsilon G). exact H. Qed.

(** X1. Subtraction of points is anti-commutative, coordinate by
    coordinate, except that equal coordinates give [+0] both ways. *)
Theorem point_sub_antisym (P Q : point) :
  (x (point_sub P Q) = SFopp (x (point_sub Q P)) \/
   (x (point_sub P Q) = S754_zero false /\ x (point_sub Q P) = S754_zero false)) /\
  (y (point_sub P Q) = SFopp (y (point_sub Q P)) \/
   (y (point_sub P Q) = S754_zero false /\ y (point_sub Q P) = S754_zero false)) /\
  fabs (x (point_sub P Q)) = fabs (x (point_sub Q P)) /\
  fabs (y (point_sub P Q)) = fabs (y (point_sub Q P)).
Proof.
  cbn [point_sub x y].
  repeat split; first [apply dsub_swap | apply dsub_swap_abs].
Qed.

(** X2. The dot product is commutative, bit for bit. *)
Theorem dot_comm (P Q : point) : dot P Q = dot Q P.
Proof. unfold dot. rewrite (dmul_comm (x P) (x Q)), (dmul_comm (y P) (y Q)). reflexivity. Qed.

(** X3. The distance between two points does not depend on their order. *)
Theorem distance_symmetric (P Q : point) :
  norm (point_sub P Q) = norm (point_sub Q P).
Proof.
  unfold norm, dot, point_sub; cbn [x y].
  rewrite (dsub_swap_sq (x P) (x Q)), (dsub_swap_sq (y P) (y Q)). reflexivity.
Qed.

(** X4. On a point with finite coordinates the norm is never NaN and
    never negative, and the distance of the point to itself is [+0]. *)
Theorem norm_nonneg (P : point) :
  finite_point P = true ->
  dle (of_Z 0) (norm P) = true /\ norm P <> S754_nan /\
  norm (point_sub P P) = S754_zero false.
Proof.
  intros HP. destruct (finite_point_good P HP) as (Fx & Fy & Gx & Gy).
  assert (G : good (norm P)).
  { apply dsqrt_good. apply (dot_self_rank (x P) (y P)); assumption. }
  split; [|split].
  - apply dle_rank; [exact I|exact G|]. apply (good_rank_bounds _ G).
  - intros E. rewrite E in G. exact G.
  - unfold norm, dot, point_sub; cbn [x y].
    rewrite (dsub_diag _ Fx), (dsub_diag _ Fy). reflexivity.
Qed.

Lemma norm_nonneg_witness :
  dle (of_Z 0) (norm (ipoint 3 (-4))) = true /\ norm (ipoint 3 (-4)) <> S754_nan /\
  norm (point_sub (ipoint 3 (-4)) (ipoint 3 (-4))) = S754_zero false.
Proof. apply (norm_nonneg (ipoint 3 (-4))). reflexivity. Defined.

(** X5. The norm of a finite point is at least the magnitude of each
    coordinate whose magnitude is at least [epsilon]. *)
Theorem norm_ge_coordinate (P : point) :
  finite_point P = true ->
  (dle epsilon (fabs (x P)) = true -> dle (fabs (x P)) (norm P) = true) /\
  (dle epsilon (fabs (y P)) = true -> dle (fabs (y P)) (norm P) = true).
Proof.
  intros HP. destruct (finite_point_good P HP) as (Fx & Fy & Gx & Gy).
  destruct (dot_self_rank (x P) (y P) Gx Gy) as (GS & Lx & Ly). cbv zeta in *.
  destruct (dmul_sq_rank (x P) Gx) as [Gxx _], (dmul_sq_rank (y P) Gy) as [Gyy _].
  pose proof (dsqrt_good _ GS) as GN.
  split; intros H; apply dle_epsilon_rank in H; try assumption.
  - pose proof (dsqrt_sq_ge (x P) Gx H). pose proof (dsqrt_mono _ _ Gxx GS Lx).
    apply dle_rank; [assumption|exact GN|]. unfold norm, dot. lia.
  - pose proof (dsqrt_sq_ge (y P) Gy H). pose proof (dsqrt_mono _ _ Gyy GS Ly).
    apply dle_rank; [assumption|exact GN|]. unfold norm, dot. lia.
Qed.

Lemma norm_ge_coordinate_witness :
  dle (fabs (of_Z 3)) (norm (ipoint 3 (-4))) = true /\
  dle (fabs (of_Z (-4))) (norm (ipoint 3 (-4))) = true.
Proof.
  split.
  - apply (proj1 (norm_ge_coordinate (ipoint 3 (-4)) eq_refl)). reflexivity.
  - apply (proj2 (norm_ge_coordinate (ipoint 3 (-4)) eq_refl)). reflexivity.
Defined.

(** X6. Two finite points whose [x] coordinates, or whose [y]
    coordinates, differ by at least [epsilon] are not equal, and a line
    can be constructed from them. *)
Theorem separated_points_distinct (P Q : point) :
  finite_point P = true -> finite_point Q = true ->
  dle epsilon (fabs (dsub (x P) (x Q))) = true \/
  dle epsilon (fabs (dsub (y P) (y Q))) = true ->
  point_eq P Q = false /\ line_ctor P Q = Returned (mkline P Q).
Proof.
  intros HP HQ H.
  assert (N : dle epsilon (norm (point_sub Q P)) = true).
  { destruct H as [H|H]; apply dle_not_dlt in H.
    - apply (norm_ge_epsilon P Q); assumption.
    - apply norm_ge_epsilon_y; assumption. }
  assert (E : point_eq P Q = false) by (unfold point_eq; apply dle_not_dlt; exact N).
  split; [exact E|]. unfold line_ctor, point_neq. rewrite E. reflexivity.
Qed.

Lemma separated_points_distinct_witness :
  point_eq (ipoint 0 0) (ipoint 0 1) = false /\
  line_ctor (ipoint 0 0) (ipoint 0 1) = Returned (mkline (ipoint 0 0) (ipoint 0 1)).
Proof.
  apply (separated_points_distinct (ipoint 0 0) (ipoint 0 1)); try reflexivity.
  right. reflexivity.
Defined.

(** X7. Construction from [(P, Q)] aborts exactly when construction from
    [(Q, P)] aborts. *)
Theorem line_ctor_swap (P Q : point) :
  (line_ctor P Q = Aborted <-> line_ctor Q P = Aborted) /\
  (line_ctor P Q = Returned (mkline P Q) <-> line_ctor Q P = Returned (mkline Q P)).
Proof.
  unfold line_ctor, point_neq. rewrite (point_eq_sym Q P).
  destruct (point_eq P Q); cbn [negb]; split; split; intros H;
    first [reflexivity | discriminate].
Qed.

(** X8. [sine] does not depend on the order of the two points, for every
    pair of points, vertical lines included. *)
Theorem sine_swap_all (P Q : point) : sine (mkline P Q) = sine (mkline Q P).
Proof.
  destruct (dlt (fabs (dsub (x P) (x Q))) epsilon) eqn:G.
  - unfold sine; cbn [A B]. rewrite <- (dsub_swap_abs (x P) (x Q)), G. reflexivity.
  - apply sine_swap_raw. exact G.
Qed.



(** X10. A non-vertical line through finite points of equal [y] has that
    [y] as its y-intercept (as [+0] when the common [y] is [-0]). *)
Theorem y_intercept_horizontal (l : line) :
  finite_point (A l) = true -> finite_point (B l) = true ->
  y (A l) = y (B l) ->
  dlt (fabs (dsub (x (A l)) (x (B l)))) epsilon = false ->
  fabs (y_intercept l) = fabs (y (A l)) /\
  (y (A l) <> S754_zero true -> y_intercept l = y (A l)).
Proof.
  intros HA HB E G.
  destruct (finite_point_good _ HA) as (FAx & FAy & GAx & GAy).
  destruct (finite_point_good _ HB) as (FBx & FBy & GBx & GBy).
  destruct (guard_false_shape _ _ FAx FBx GAx GBx G) as [s Hd].
  unfold y_intercept. rewrite G. cbv zeta. rewrite <- E, (dsub_diag _ FAy).
  apply (intercept_flat _ _ _ s); assumption.
Qed.

Lemma y_intercept_horizontal_witness :
  fabs (y_intercept (mkline (ipoint 0 5) (ipoint 3 5))) = fabs (of_Z 5) /\
  (of_Z 5 <> S754_zero true -> y_intercept (mkline (ipoint 0 5) (ipoint 3 5)) = of_Z 5).
Proof. apply (y_intercept_horizontal (mkline (ipoint 0 5) (ipoint 3 5))); reflexivity. Defined.

(** X11. A non-horizontal line through finite points of equal [x] has
    that [x] as its x-intercept (as [+0] when the common [x] is [-0]). *)
Theorem x_intercept_vertical (l : line) :
  finite_point (A l) = true -> finite_point (B l) = true ->
  x (A l) = x (B l) ->
  dlt (fabs (dsub (y (A l)) (y (B l)))) epsilon = false ->
  fabs (x_intercept l) = fabs (x (A l)) /\
  (x (A l) <> S754_zero true -> x_intercept l = x (A l)).
Proof.
  intros HA HB E G.
  destruct (finite_point_good _ HA) as (FAx & FAy & GAx & GAy).
  destruct (finite_point_good _ HB) as (FBx & FBy & GBx & GBy).
  destruct (guard_false_shape _ _ FAy FBy GAy GBy G) as [s Hd].
  unfold x_intercept. rewrite G. cbv zeta. rewrite <- E, (dsub_diag _ FAx).
  apply (intercept_flat _ _ _ s); assumption.
Qed.

Lemma x_intercept_vertical_witness :
  fabs (x_intercept (mkline (ipoint 2 0) (ipoint 2 9))) = fabs (of_Z 2) /\
  (of_Z 2 <> S754_zero true -> x_intercept (mkline (ipoint 2 0) (ipoint 2 9)) = of_Z 2).
Proof. apply (x_intercept_vertical (mkline (ipoint 2 0) (ipoint 2 9))); reflexivity. Defined.

(** X12. A line through finite points crosses both of its defining
    points, whether or not the two points are distinct. *)
Theorem crosses_defining_points (l : line) :
  finite_point (A l) = true -> finite_point (B l) = true ->
  crosses l (A l) = true /\ crosses l (B l) = true.
Proof.
  intros HA HB.
  destruct (finite_point_good _ HA) as (FAx & FAy & _).
  destruct (finite_point_good _ HB) as (FBx & FBy & _).
  unfold crosses.
  rewrite (point_eq_refl (A l) FAx FAy), (point_eq_refl (B l) FBx FBy).
  rewrite orb_true_r. split; reflexivity.
Qed.

Lemma crosses_defining_points_witness :
  crosses (mkline (ipoint 0 0) (ipoint 1 1)) (ipoint 0 0) = true /\
  crosses (mkline (ipoint 0 0) (ipoint 1 1)) (ipoint 1 1) = true.
Proof. apply (crosses_defining_points (mkline (ipoint 0 0) (ipoint 1 1))); reflexivity. Defined.

(** *** Signs of differences and quotients *)

Lemma SFcompare_neg m1 e1 m2 e2 :
  SFcompare (S754_finite true m1 e1) (S754_finite true m2 e2) =
  SFcompare (S754_finite false m2 e2) (S754_finite false m1 e1).
Proof.
  cbn [SFcompare]. rewrite (Z.compare_antisym e1 e2).
  destruct (e1 ?= e2); cbn [CompOpp]; try reflexivity.
  rewrite Pos.compare_cont_antisym. reflexivity.
Qed.

Lemma dle_zero_good d : good d -> dle (of_Z 0) d = true.
Proof.
  intros G. apply dle_rank; [exact I|exact G|]. apply (good_rank_bounds _ G).
Qed.

Lemma dle_zero_opp d : dle (of_Z 0) d = true -> dle (SFopp d) (of_Z 0) = true.
Proof. destruct d as [s|[]| |[] m e]; try discriminate; intros _; reflexivity. Qed.

(** The sign of a difference of finite doubles: [b - a >= 0] when
    [a <= b]. *)
Lemma dsub_sign a b :
  is_finite a = true -> is_finite b = true ->
  good (fabs a) -> good (fabs b) ->
  dle a b = true -> dle (of_Z 0) (dsub b a) = true.
Proof.
  intros Fa Fb Ga Gb H.
  destruct a as [sa|sa| |sa ma ea], b as [sb|sb| |sb mb eb]; try discriminate.
  - destruct sa, sb; reflexivity.
  - destruct sb; [discriminate|]. apply dle_zero_good. exact Gb.
  - destruct sa; [|discriminate]. apply dle_zero_good. exact Ga.
  - pose proof (good_exponent _ _ _ Ga) as La. pose proof (good_exponent _ _ _ Gb) as Lb.
    unfold dsub, SFsub.
    set (ez := Z.min eb ea).
    destruct (shl_align_spec mb eb ez) as [Fb' _].
    destruct (shl_align_spec ma ea ez) as [Fa' _].
    cbv zeta in Fa', Fb'. rewrite Fa', Fb'.
    replace (Z.min eb ez) with ez by lia. replace (Z.min ea ez) with ez by lia.
    pose proof (pow2_pos (ea - ez) ltac:(lia)) as Pa.
    pose proof (pow2_pos (eb - ez) ltac:(lia)) as Pb.
    set (za := Zpos ma * 2 ^ (ea - ez)) in *. set (zb := Zpos mb * 2 ^ (eb - ez)) in *.
    assert (Hza : 0 < za) by (unfold za; nia).
    assert (Hzb : 0 < zb) by (unfold zb; nia).
    assert (Key : forall m1 e1 m2 e2,
               -1074 <= e1 -> -1074 <= e2 ->
               Zpos m1 * 2 ^ (e1 + base) <= Zpos m2 * 2 ^ (e2 + base) ->
               Zpos m1 * 2 ^ (e1 - Z.min e1 e2) <= Zpos m2 * 2 ^ (e2 - Z.min e1 e2)).
    { intros m1 e1 m2 e2 L1 L2 R. unfold base in R.
      pose proof (pow2_pos (Z.min e1 e2 + 2200) ltac:(lia)) as P.
      apply Z.mul_le_mono_pos_r with (p := 2 ^ (Z.min e1 e2 + 2200)); [assumption|].
      rewrite <- !Z.mul_assoc, <- !pow2_split by lia.
      replace (e1 - Z.min e1 e2 + (Z.min e1 e2 + 2200)) with (e1 + 2200) by lia.
      replace (e2 - Z.min e1 e2 + (Z.min e1 e2 + 2200)) with (e2 + 2200) by lia.
      assumption. }
    assert (D : 0 <= cond_Zopp sb zb - cond_Zopp sa za).
    { destruct sa, sb; cbn [cond_Zopp].
      - unfold dle, SFleb in H. rewrite SFcompare_neg in H.
        fold (SFleb (S754_finite false mb eb) (S754_finite false ma ea)) in H.
        apply (dle_rank _ _ Gb Ga) in H. cbn [rank] in H.
        pose proof (Key mb eb ma ea Lb La H) as K. fold ez in K. fold za zb in K. lia.
      - lia.
      - discriminate.
      - apply (dle_rank _ _ Ga Gb) in H. cbn [rank] in H.
        pose proof (Key ma ea mb eb La Lb H) as K.
        rewrite (Z.min_comm ea eb) in K. fold ez in K. fold za zb in K. lia. }
    destruct (cond_Zopp sb zb - cond_Zopp sa za) as [|p|p]; try lia.
    + reflexivity.
    + cbn [binary_normalize]. apply dle_zero_good.
      apply binary_round_rank. unfold ez. lia.
Qed.

(** A non-negative double divided by a positive one is non-negative, a
    non-positive one divided by a positive one is non-positive. *)
Lemma ddiv_sign num N :
  good N -> 0 < rank N -> num <> S754_nan ->
  (is_finite num = true \/ is_finite N = true) ->
  (dle (of_Z 0) num = true -> dle (of_Z 0) (ddiv num N) = true) /\
  (dle num (of_Z 0) = true -> dle (ddiv num N) (of_Z 0) = true).
Proof.
  intros GN PN NN Fin.
  destruct (good_positive_shape N GN PN) as [-> | (m2 & e2 & ->)].
  - destruct Fin as [F|F]; [|discriminate].
    destruct num as [s|s| |s m e]; try discriminate; try congruence;
      destruct s; split; intros H; try reflexivity; discriminate.
  - destruct num as [s|s| |s m e]; try congruence.
    + destruct s; split; intros H; reflexivity.
    + destruct s; split; intros H; try reflexivity; discriminate.
    + unfold ddiv, SFdiv.
      destruct (SFdiv_core_binary prec emax (Zpos m) e (Zpos m2) e2) as [[q e'] l] eqn:E.
      assert (Hq : 0 <= q).
      { unfold SFdiv_core_binary in E.
        set (m' := match (e - e2 - _) with 0 => _ | Zpos _ => _ | Zneg _ => _ end) in E.
        assert (Hm' : 0 <= m').
        { unfold m'. destruct (e - e2 - _) as [|p|p]; try lia.
          rewrite Z.shiftl_mul_pow2 by lia. pose proof (pow2_pos (Zpos p) ltac:(lia)). nia. }
        pose proof (Z_div_mod m' (Zpos m2) ltac:(lia)) as DM.
        destruct (Z.div_eucl m' (Zpos m2)) as [q0 r0]. injection E as <- _ _.
        destruct DM. nia. }
      rewrite xorb_false_r, binary_round_aux_eq by assumption.
      unfold round_core.
      set (m1 := rne _ _). set (n2 := Z.max 0 _).
      assert (Hm : 0 <= m1 / 2 ^ n2).
      { apply Z.div_pos; [apply rne_nonneg; destruct l as [|[]]; cbn [loc_code]; lia|].
        apply pow2_pos. unfold n2. lia. }
      set (e'' := e' + _ + n2).
      destruct (m1 / 2 ^ n2) as [|p|p]; try lia; unfold pack.
      * destruct s; split; intros; reflexivity.
      * destruct (e'' <=? emax - prec); destruct s; split; intros H0;
          try reflexivity; discriminate.
Qed.

Lemma dsub_sign_neg a b :
  is_finite a = true -> is_finite b = true ->
  good (fabs a) -> good (fabs b) ->
  dle b a = true -> dle (dsub b a) (of_Z 0) = true.
Proof.
  intros Fa Fb Ga Gb H.
  pose proof (dsub_sign b a Fb Fa Gb Ga H) as S.
  destruct (dsub_swap b a) as [E|[E _]]; rewrite E; [|reflexivity].
  apply dle_zero_opp. exact S.
Qed.

Lemma good_fabs_not_nan a : good (fabs a) -> a <> S754_nan.
Proof. intros G ->. exact G. Qed.

(** With finite operands, [b > a] fails and [|a - b| < epsilon] fails
    only when [a > b]. *)
Lemma not_gt_not_close a b :
  is_finite a = true -> is_finite b = true ->
  good (fabs a) -> good (fabs b) ->
  dlt (fabs (dsub a b)) epsilon = false -> dgt b a = false -> dgt a b = true.
Proof.
  intros Fa Fb Ga Gb G H. unfold dgt in *.
  destruct (SFcompare b a) as [c|] eqn:E.
  - rewrite (SFcompare_antisym _ _ _ E). destruct c; try discriminate; try reflexivity.
    apply SFcompare_eq_dsub in E. rewrite (dsub_swap_abs a b) in G.
    destruct E as [E|E].
    + rewrite E in G. discriminate.
    + pose proof (dsub_good b a Gb Ga Fb Fa) as Gd. rewrite E in Gd. contradiction.
  - apply SFcompare_none in E. destruct E as [-> | ->]; discriminate.
Qed.

(** X13. The sign convention of [sine]: on a non-vertical line through
    finite points, with [B.y - A.y] not overflowing, the sine is
    non-negative when the endpoint of greater [x] has the greater or equal
    [y], and non-positive when it has the smaller or equal [y]. *)
Theorem sine_sign (l : line) :
  finite_point (A l) = true -> finite_point (B l) = true ->
  is_finite (dsub (y (B l)) (y (A l))) = true ->
  dlt (fabs (dsub (x (A l)) (x (B l)))) epsilon = false ->
  (dgt (x (B l)) (x (A l)) = true ->
     (dle (y (A l)) (y (B l)) = true -> dle (of_Z 0) (sine l) = true) /\
     (dle (y (B l)) (y (A l)) = true -> dle (sine l) (of_Z 0) = true)) /\
  (dgt (x (B l)) (x (A l)) = false ->
     dgt (x (A l)) (x (B l)) = true /\
     (dle (y (B l)) (y (A l)) = true -> dle (of_Z 0) (sine l) = true) /\
     (dle (y (A l)) (y (B l)) = true -> dle (sine l) (of_Z 0) = true)).
Proof.
  intros HA HB Fin G.
  destruct (finite_point_good _ HA) as (FAx & FAy & GAx & GAy).
  destruct (finite_point_good _ HB) as (FBx & FBy & GBx & GBy).
  destruct (norm_ge_epsilon (A l) (B l) HA HB G) as [GN LN].
  apply (dle_rank _ _ good_epsilon GN) in LN. pose proof rank_epsilon_pos as Pe.
  assert (PN : 0 < rank (norm (point_sub (B l) (A l)))) by lia.
  assert (Fin' : is_finite (dsub (y (A l)) (y (B l))) = true)
    by (rewrite is_finite_dsub_swap; exact Fin).
  assert (N1 : dsub (y (B l)) (y (A l)) <> S754_nan)
    by (apply good_fabs_not_nan, dsub_good; assumption).
  assert (N2 : dsub (y (A l)) (y (B l)) <> S754_nan)
    by (apply good_fabs_not_nan, dsub_good; assumption).
  destruct (ddiv_sign _ _ GN PN N1 (or_introl Fin)) as [P1 M1].
  destruct (ddiv_sign _ _ GN PN N2 (or_introl Fin')) as [P2 M2].
  unfold sine. rewrite G.
  split; intros D; rewrite D.
  - split; intros H.
    + apply P1, dsub_sign; assumption.
    + apply M1, dsub_sign_neg; assumption.
  - split; [apply not_gt_not_close; assumption|].
    split; intros H.
    + apply P2, dsub_sign; assumption.
    + apply M2, dsub_sign_neg; assumption.
Qed.

Lemma sine_sign_witness :
  dle (of_Z 0) (sine (mkline (ipoint 0 0) (ipoint 1 1))) = true /\
  dle (sine (mkline (ipoint 1 0) (ipoint 0 1))) (of_Z 0) = true.
Proof.
  split.
  - apply (proj1 (proj1 (sine_sign (mkline (ipoint 0 0) (ipoint 1 1))
                           eq_refl eq_refl eq_refl eq_refl) eq_refl)).
    reflexivity.
  - apply (proj2 (proj2 (proj2 (sine_sign (mkline (ipoint 1 0) (ipoint 0 1))
                                  eq_refl eq_refl eq_refl eq_refl) eq_refl))).
    reflexivity.
Defined.

(** *** Exact distances along one axis *)

(** Canonical non-negative doubles of equal positive rank are equal. *)
Lemma good_rank_inj a b :
  good a -> good b -> rank a = rank b -> 0 < rank a -> a = b.
Proof.
  intros Ga Gb E P.
  pose proof (SFcompare_rank a b Ga Gb) as C.
  rewrite E, Z.compare_refl in C.
  destruct a as [sa|[]| |[] ma ea], b as [sb|[]| |[] mb eb]; try contradiction;
    try (cbn [rank] in P; lia); try reflexivity; try discriminate.
  cbn [SFcompare] in C. injection C as C.
  destruct (Z.compare_spec ea eb) as [->|L|L]; try discriminate.
  destruct (compare_cont_spec ma mb) as [Em|Em|Em]; try discriminate.
  injection Em as ->. reflexivity.
Qed.

(** The computed square root of the computed square of [a] is at most
    [|a|], for [|a| >= epsilon] whose square does not overflow. *)
Lemma dsqrt_sq_le a :
  good (fabs a) -> rank epsilon <= rank (fabs a) ->
  is_finite (dmul a a) = true ->
  rank (dsqrt (dmul a a)) <= rank (fabs a).
Proof.
  intros Ga He Fin.
  destruct (dmul_sq_rank a Ga) as [GP RP].
  destruct a as [s|s| |s m e].
  - pose proof rank_epsilon_pos. cbn [fabs SFabs rank] in He. lia.
  - destruct s; discriminate.
  - contradiction.
  - cbn [fabs SFabs good rank] in Ga, He |- *. destruct Ga as [C Bd].
    destruct (ge_epsilon_normal m e C He) as (Le & Lm & Um).
    unfold base in *.
    set (w := 2 ^ (2 * e + 2200)) in *.
    assert (Pw : 0 < w) by (apply pow2_pos; lia).
    set (V := Zpos m * Zpos m * w) in *.
    assert (Bmm : 2 ^ 104 <= Zpos m * Zpos m <= (2 ^ 53 - 1) * 2 ^ 53).
    { split.
      - change (2 ^ 104) with (2 ^ 52 * 2 ^ 52). apply Z.mul_le_mono_nonneg; lia.
      - assert (Zpos m * Zpos m <= (2 ^ 53 - 1) * (2 ^ 53 - 1))
          by (apply Z.mul_le_mono_nonneg; lia).
        assert ((2 ^ 53 - 1) * (2 ^ 53 - 1) <= (2 ^ 53 - 1) * 2 ^ 53) by (vm_compute; discriminate).
        lia. }
    set (D := Zdigits2 (Zpos m * Zpos m)).
    assert (BD : 105 <= D <= 106).
    { split; [apply (Zdigits2_ge _ 104); lia|apply Zdigits2_le; [lia|]].
      assert ((2 ^ 53 - 1) * 2 ^ 53 < 2 ^ 106) by (vm_compute; reflexivity). lia. }
    assert (DV : Zdigits2 V = D + (2 * e + 2200)).
    { unfold V, w. apply Zdigits2_shift; lia. }
    assert (HV : 0 < V) by (unfold V; nia).
    pose proof (Rz_near V HV) as Near. destruct (Rz_bounds V HV) as [_ LB].
    cbv zeta in LB. rewrite DV in Near, LB.
    replace (Z.max (D + (2 * e + 2200) - 53) 1126) with (D - 53 + (2 * e + 2200)) in * by lia.
    specialize (LB ltac:(lia)).
    rewrite pow2_split in Near by lia. fold w in Near.
    assert (Top : Rz V <= (2 ^ 53 - 1) * 2 ^ 53 * w).
    { pose proof (Rz_exact (2 ^ 53 - 1) (53 + 2 * e) ltac:(vm_compute; reflexivity)
                    ltac:(change (Zdigits2 (2 ^ 53 - 1)) with 53; unfold fexp64; lia)) as Ex.
      unfold base in Ex.
      replace (53 + 2 * e + 2200) with (53 + (2 * e + 2200)) in Ex by lia.
      rewrite pow2_split in Ex by lia. fold w in Ex. rewrite Z.mul_assoc in Ex.
      rewrite <- Ex. apply Rz_mono. split; [assumption|].
      unfold V. apply Z.mul_le_mono_nonneg_r; lia. }
    set (XP := Rz V) in *.
    assert (PX : 0 < XP).
    { pose proof (pow2_pos (D + (2 * e + 2200) - 1) ltac:(lia)). lia. }
    destruct (dmul (S754_finite s m e) (S754_finite s m e)) as [sP|[]| |[] mP eP] eqn:EP;
      try contradiction; try discriminate.
    + cbn [rank] in RP. unfold INF in RP. lia.
    + destruct GP as [CP BdP].
      pose proof (canonical_rank_lt mP eP CP BdP) as LtP.
      cbn [rank] in RP. unfold base in *.
      assert (EXP : Zpos mP * 2 ^ (eP + 2200) = XP) by lia. clear RP.
      destruct (dsqrt_finite mP eP (conj CP BdP)) as (R & E1 & NS & BR & S1 & X1 & _).
      cbv zeta in *. rewrite E1. clear E1. cbn [rank]. unfold base.
      destruct (canonical_bounds (Zpos mP) eP ltac:(lia) CP) as (LP & _ & _).
      assert (DX : Zdigits2 XP = Zdigits2 (Zpos mP) + (eP + 2200)).
      { rewrite <- EXP. apply Zdigits2_shift; lia. }
      assert (DXl : D + (2 * e + 2200) <= Zdigits2 XP).
      { pose proof (Zdigits2_ge XP (D + (2 * e + 2200) - 1) ltac:(lia) LB). lia. }
      assert (DXu : Zdigits2 XP <= 106 + (2 * e + 2200)).
      { apply Zdigits2_le; [assumption|].
        rewrite pow2_split by lia. fold w.
        assert ((2 ^ 53 - 1) * 2 ^ 53 < 2 ^ 106) by (vm_compute; reflexivity).
        assert ((2 ^ 53 - 1) * 2 ^ 53 * w < 2 ^ 106 * w)
          by (apply Z.mul_lt_mono_pos_r; assumption).
        lia. }
      set (e' := sqrt_exp (Zpos mP) eP) in *.
      assert (Ee' : e' = e).
      { unfold e', sqrt_exp.
        pose proof (Z.div_le_mono (106 + 2 * e) (Zdigits2 (Zpos mP) + eP + 1) 2
                      ltac:(lia) ltac:(lia)) as Q.
        replace (106 + 2 * e) with ((53 + e) * 2) in Q by lia.
        rewrite Z.div_mul in Q by lia.
        pose proof (Z.div_le_mono (Zdigits2 (Zpos mP) + eP + 1) (1 + (53 + e) * 2) 2
                      ltac:(lia) ltac:(lia)) as Q'.
        rewrite Z.div_add in Q' by lia. change (1 / 2) with 0 in Q'. lia. }
      clearbody e'. subst e'.
      apply Z.mul_le_mono_nonneg_r; [apply Z.pow_nonneg; lia|].
      destruct (Z.le_gt_cases (Zpos R) (Zpos m)) as [|G]; [assumption|exfalso].
      unfold nearest_sqrt in NS.
      set (W := Zpos mP * 2 ^ (eP - 2 * e)) in *.
      assert (WX : W * w = XP).
      { unfold W, w. rewrite <- Z.mul_assoc, <- pow2_split by lia.
        rewrite <- EXP. f_equal. f_equal. lia. }
      assert (RR : Zpos m * (Zpos m + 1) <= (Zpos R - 1) * Zpos R)
        by (apply Z.mul_le_mono_nonneg; lia).
      assert (HW : Zpos m * Zpos m + Zpos m + 1 <= W) by lia.
      assert (HWw : (Zpos m * Zpos m + Zpos m + 1) * w <= W * w)
        by (apply Z.mul_le_mono_nonneg_r; lia).
      assert (HX : V + (Zpos m + 1) * w <= XP) by (unfold V; lia).
      assert (P53 : 0 < 2 ^ (D - 53)) by (apply pow2_pos; lia).
      assert (M2 : 2 * (Zpos m + 1) <= 2 ^ (D - 53)).
      { apply Z.mul_le_mono_pos_r with (p := w); [assumption|].
        rewrite Z.abs_eq in Near by lia. lia. }
      pose proof (pow2_le (D - 53) 53 ltac:(lia)) as Q.
      change (2 ^ 53) with (2 * 2 ^ 52) in Q. lia.
Qed.

(** The computed distance along one axis is exact. *)
Lemma dsqrt_sq_exact a :
  good (fabs a) -> rank epsilon <= rank (fabs a) ->
  is_finite (dmul a a) = true ->
  dsqrt (dmul a a) = fabs a.
Proof.
  intros Ga He Fin.
  pose proof (dsqrt_sq_le a Ga He Fin). pose proof (dsqrt_sq_ge a Ga He).
  pose proof rank_epsilon_pos.
  destruct (dmul_sq_rank a Ga) as [GP _].
  apply good_rank_inj; [apply dsqrt_good; assumption|assumption|lia|lia].
Qed.

(** *** Products of lengths *)

Lemma fabs_dmul a b : fabs (dmul a b) = dmul (fabs a) (fabs b).
Proof.
  destruct a as [sa|sa| |sa ma ea], b as [sb|sb| |sb mb eb]; try reflexivity.
  unfold dmul, SFmul. cbn [fabs SFabs]. apply fabs_binary_round_aux.
Qed.

Lemma fabs_dadd_zero_r w : fabs (dadd w (S754_zero false)) = fabs w.
Proof. destruct w as [[]|[]| |s m e]; reflexivity. Qed.

Lemma fabs_dadd_zero_l w : fabs (dadd (S754_zero false) w) = fabs w.
Proof. destruct w as [[]|[]| |s m e]; reflexivity. Qed.

(** A square is [+0], a positive double or [+infinity]; adding [+0] to it
    changes nothing. *)
Lemma dmul_sq_dadd_zero u :
  good (fabs u) ->
  dadd (dmul u u) (S754_zero false) = dmul u u /\
  dadd (S754_zero false) (dmul u u) = dmul u u.
Proof.
  intros G. destruct (dmul_sq_rank u G) as [GP _].
  destruct u as [[]|[]| |s m e]; try contradiction; try (split; reflexivity).
  revert GP. unfold dmul, SFmul. rewrite binary_round_aux_eq by lia.
  rewrite xorb_nilpotent. unfold round_core.
  match goal with |- context [pack false ?q ?k] => generalize q; generalize k end.
  intros k [|p|p]; unfold pack; [split; reflexivity| |intros []].
  destruct (k <=? emax - prec); split; reflexivity.
Qed.

(** A canonical double at least a normal one is normal. *)
Lemma ge_normal mc ec m e :
  fexp64 (Zdigits2 (Zpos mc) + ec) = ec -> 2 ^ 52 <= Zpos mc ->
  fexp64 (Zdigits2 (Zpos m) + e) = e ->
  Zpos mc * 2 ^ (ec + base) <= Zpos m * 2 ^ (e + base) ->
  ec <= e /\ 2 ^ 52 <= Zpos m.
Proof.
  intros Cc Nc C H.
  destruct (canonical_bounds (Zpos mc) ec ltac:(lia) Cc) as (Lc & Uc & _).
  destruct (canonical_bounds (Zpos m) e ltac:(lia) C) as (L & U & N).
  assert (E : ec <= e).
  { destruct (Z.le_gt_cases ec e) as [|G]; [assumption|exfalso].
    pose proof (scaled_lt_of_exp (Zpos m) e (Zpos mc) ec ltac:(lia) Nc G
                  ltac:(unfold base; lia)). lia. }
  split; [assumption|].
  destruct (Z.eq_dec e ec) as [->|NE]; [|apply N; lia].
  pose proof (pow2_pos (ec + base) ltac:(unfold base; lia)). nia.
Qed.

(** A positive normal double. *)
Lemma dmul_normal_rank ma ea mb eb :
  good (S754_finite false ma ea) -> good (S754_finite false mb eb) ->
  2 ^ 52 <= Zpos ma -> 2 ^ 52 <= Zpos mb ->
  good (dmul (S754_finite false ma ea) (S754_finite false mb eb)) /\
  rank (dmul (S754_finite false ma ea) (S754_finite false mb eb)) =
  Z.min (Rz (Zpos ma * Zpos mb * 2 ^ (ea + eb + base))) INF.
Proof.
  intros [Ca Ba] [Cb Bb] Na Nb.
  destruct (canonical_bounds (Zpos ma) ea ltac:(lia) Ca) as (La & _ & _).
  destruct (canonical_bounds (Zpos mb) eb ltac:(lia) Cb) as (Lb & _ & _).
  unfold dmul, SFmul. cbn [xorb]. rewrite binary_round_aux_eq by lia.
  rewrite Pos2Z.inj_mul.
  apply round_core_rank; [lia|unfold base; lia|].
  assert (2 ^ 104 <= Zpos ma * Zpos mb).
  { change (2 ^ 104) with (2 ^ 52 * 2 ^ 52). apply Z.mul_le_mono_nonneg; lia. }
  pose proof (Zdigits2_ge (Zpos ma * Zpos mb) 104 ltac:(lia) H).
  unfold fexp64. lia.
Qed.

(** Multiplication is monotone on doubles that dominate positive normal
    ones. *)
Lemma dmul_mono_ge mc ec md ed a b :
  good (S754_finite false mc ec) -> good (S754_finite false md ed) ->
  2 ^ 52 <= Zpos mc -> 2 ^ 52 <= Zpos md ->
  good a -> good b ->
  rank (S754_finite false mc ec) <= rank a ->
  rank (S754_finite false md ed) <= rank b ->
  good (dmul a b) /\
  rank (dmul (S754_finite false mc ec) (S754_finite false md ed)) <= rank (dmul a b).
Proof.
  intros Gc Gd Nc Nd Ga Gb Ha Hb.
  destruct (dmul_normal_rank mc ec md ed Gc Gd Nc Nd) as [Gcd Rcd].
  pose proof (good_rank_bounds _ Gcd) as Bcd.
  pose proof (good_exponent false _ _ Gc) as Lc. pose proof (good_exponent false _ _ Gd) as Ld.
  pose proof (rank_finite_pos mc ec Lc) as Pc. pose proof (rank_finite_pos md ed Ld) as Pd.
  destruct a as [sa|[]| |[] ma ea]; try contradiction.
  - cbn [rank] in *. lia.
  - destruct b as [sb|[]| |[] mb eb]; try contradiction.
    + cbn [rank] in *. lia.
    + split; [exact I|]. change (dmul (S754_infinity false) (S754_infinity false))
        with (S754_infinity false). cbn [rank]. lia.
    + split; [exact I|]. change (dmul (S754_infinity false) (S754_finite false mb eb))
        with (S754_infinity false). cbn [rank]. lia.
  - destruct b as [sb|[]| |[] mb eb]; try contradiction.
    + cbn [rank] in *. lia.
    + split; [exact I|]. change (dmul (S754_finite false ma ea) (S754_infinity false))
        with (S754_infinity false). cbn [rank]. lia.
    + cbn [rank] in Ha, Hb.
      destruct Gc as [Cc Bc], Gd as [Cd Bd].
      destruct (ge_normal mc ec ma ea Cc Nc (proj1 Ga) Ha) as [Ea Na].
      destruct (ge_normal md ed mb eb Cd Nd (proj1 Gb) Hb) as [Eb Nb].
      destruct (dmul_normal_rank ma ea mb eb Ga Gb Na Nb) as [Gab Rab].
      split; [exact Gab|]. rewrite Rcd, Rab.
      apply Z.min_le_compat_r. apply Rz_mono. unfold base in *.
      pose proof (pow2_pos (ec + ed + 2200) ltac:(lia)).
      split; [nia|].
      pose proof (pow2_pos 2200 ltac:(lia)) as P.
      apply Z.mul_le_mono_pos_r with (p := 2 ^ 2200); [assumption|].
      rewrite <- !Z.mul_assoc, <- !pow2_split by lia.
      replace (ec + ed + 2200 + 2200) with ((ec + 2200) + (ed + 2200)) by lia.
      replace (ea + eb + 2200 + 2200) with ((ea + 2200) + (eb + 2200)) by lia.
      rewrite (pow2_split (ec + 2200) (ed + 2200)),
              (pow2_split (ea + 2200) (eb + 2200)) by lia.
      pose proof (pow2_pos (ec + 2200) ltac:(lia)).
      pose proof (pow2_pos (ed + 2200) ltac:(lia)).
      set (c := Zpos mc * 2 ^ (ec + 2200)) in *. set (d := Zpos md * 2 ^ (ed + 2200)) in *.
      set (a := Zpos ma * 2 ^ (ea + 2200)) in *. set (b := Zpos mb * 2 ^ (eb + 2200)) in *.
      replace (Zpos mc * (Zpos md * (2 ^ (ec + 2200) * 2 ^ (ed + 2200)))) with (c * d)
        by (unfold c, d; ring).
      replace (Zpos ma * (Zpos mb * (2 ^ (ea + 2200) * 2 ^ (eb + 2200)))) with (a * b)
        by (unfold a, b; ring).
      apply Z.mul_le_mono_nonneg; lia.
Qed.

(** Below [epsilon]: the largest double below [epsilon] is
    [7737125245533626 * 2^-86]. *)
Lemma below_epsilon a :
  good a -> rank a < rank epsilon ->
  rank a <= rank (S754_finite false 7737125245533626 (-86)).
Proof.
  intros G H. rewrite rank_epsilon in H. cbn [rank].
  pose proof (pow2_pos (-86 + base) ltac:(unfold base; lia)) as P.
  destruct a as [s|[]| |[] m e]; try contradiction; cbn [rank] in *.
  - nia.
  - unfold INF, base in *. exfalso.
    assert (7737125245533627 * 2 ^ (-86 + 2200) < 2 ^ 3224) by (vm_compute; reflexivity). lia.
  - destruct G as [C Bd].
    destruct (canonical_bounds (Zpos m) e ltac:(lia) C) as (L & U & N).
    destruct (Z.lt_trichotomy e (-86)) as [Lt|[->|Gt]].
    + apply Z.lt_le_incl.
      apply scaled_lt_of_exp; try lia; try (unfold base; lia); vm_compute; discriminate.
    + assert (Zpos m < 7737125245533627) by nia. nia.
    + exfalso. specialize (N ltac:(lia)).
      pose proof (scaled_lt_of_exp 7737125245533627 (-86) (Zpos m) e
                    ltac:(split; [lia|vm_compute; reflexivity]) N Gt
                    ltac:(unfold base; lia)). lia.
Qed.

(** A coordinate difference below [epsilon] gives a distance along that
    axis below [epsilon]. *)
Lemma axis_close u :
  good (fabs u) -> rank (fabs u) < rank epsilon ->
  dlt (dsqrt (dmul u u)) epsilon = true.
Proof.
  intros G H.
  set (p := S754_finite false 7737125245533626 (-86)).
  assert (Gp : good (fabs p)) by (vm_compute; split; [reflexivity|discriminate]).
  pose proof (below_epsilon (fabs u) G H) as B. fold p in B.
  change p with (fabs p) in B.
  pose proof (dmul_sq_mono u p G Gp B) as M.
  destruct (dmul_sq_rank u G) as [Gu _], (dmul_sq_rank p Gp) as [Gpp _].
  pose proof (dsqrt_mono _ _ Gu Gpp M) as S.
  assert (E : dsqrt (dmul p p) = p) by (vm_compute; reflexivity).
  rewrite E in S.
  apply dlt_rank; [apply dsqrt_good; assumption|exact good_epsilon|].
  assert (rank p < rank epsilon) by (vm_compute; reflexivity). lia.
Qed.

(** *** Lines parallel to an axis *)

Lemma dmul_mono_ge_eq c d a b mc ec md ed :
  c = S754_finite false mc ec -> d = S754_finite false md ed ->
  good c -> good d -> 2 ^ 52 <= Zpos mc -> 2 ^ 52 <= Zpos md ->
  good a -> good b -> rank c <= rank a -> rank d <= rank b ->
  good (dmul a b) /\ rank (dmul c d) <= rank (dmul a b).
Proof. intros -> ->. apply dmul_mono_ge. Qed.

(** The norm and the dot product of differences along one axis. *)
Lemma norm_axis_x u :
  good (fabs u) -> norm (mkpoint u (S754_zero false)) = dsqrt (dmul u u).
Proof.
  intros G. unfold norm, dot. cbn [x y].
  change (dmul (S754_zero false) (S754_zero false)) with (S754_zero false).
  rewrite (proj1 (dmul_sq_dadd_zero u G)). reflexivity.
Qed.

Lemma norm_axis_y u :
  good (fabs u) -> norm (mkpoint (S754_zero false) u) = dsqrt (dmul u u).
Proof.
  intros G. unfold norm, dot. cbn [x y].
  change (dmul (S754_zero false) (S754_zero false)) with (S754_zero false).
  rewrite (proj2 (dmul_sq_dadd_zero u G)). reflexivity.
Qed.

Lemma dot_axis_x u v :
  fabs (dot (mkpoint u (S754_zero false)) (mkpoint v (S754_zero false))) = fabs (dmul u v).
Proof. unfold dot. cbn [x y]. apply fabs_dadd_zero_r. Qed.

Lemma dot_axis_y u v :
  fabs (dot (mkpoint (S754_zero false) u) (mkpoint (S754_zero false) v)) = fabs (dmul u v).
Proof. unfold dot. cbn [x y]. apply fabs_dadd_zero_l. Qed.

(** A finite product of two square roots has finite radicands. *)
Lemma finite_factor_l p q :
  good p -> good (dsqrt q) -> 0 < rank (dsqrt q) ->
  is_finite (dmul (dsqrt p) (dsqrt q)) = true -> is_finite p = true.
Proof.
  intros Gp Gq Pq.
  destruct p as [s|[]| |[] m e]; try contradiction; try reflexivity.
  change (dsqrt (S754_infinity false)) with (S754_infinity false).
  destruct (good_positive_shape _ Gq Pq) as [->|(m & e & ->)]; intros H; exact H.
Qed.

Lemma finite_factor_r p q :
  good (dsqrt p) -> good q -> 0 < rank (dsqrt p) ->
  is_finite (dmul (dsqrt p) (dsqrt q)) = true -> is_finite q = true.
Proof.
  intros Gp Gq Pp.
  destruct q as [s|[]| |[] m e]; try contradiction; try reflexivity.
  change (dsqrt (S754_infinity false)) with (S754_infinity false).
  destruct (good_positive_shape _ Gp Pp) as [->|(m & e & ->)]; intros H; exact H.
Qed.

(** The scaled test on two differences along one axis: the product of the
    lengths is the magnitude of the dot product, bit for bit. *)
Lemma axis_core u v :
  good (fabs u) -> good (fabs v) ->
  rank epsilon <= rank (fabs u) -> rank epsilon <= rank (fabs v) ->
  is_finite (dmul (dsqrt (dmul u u)) (dsqrt (dmul v v))) = true ->
  dlt (fabs (dsub (fabs (dmul u v)) (dmul (dsqrt (dmul u u)) (dsqrt (dmul v v)))))
      (dmul (dmul epsilon (dsqrt (dmul u u))) (dsqrt (dmul v v))) = true.
Proof.
  intros Gu Gv Hu Hv Fin.
  destruct (dmul_sq_rank u Gu) as [Guu _], (dmul_sq_rank v Gv) as [Gvv _].
  pose proof (dsqrt_sq_ge u Gu Hu) as Su. pose proof (dsqrt_sq_ge v Gv Hv) as Sv.
  pose proof rank_epsilon_pos as Pe.
  pose proof (finite_factor_l _ _ Guu (dsqrt_good _ Gvv) ltac:(lia) Fin) as Fu.
  pose proof (finite_factor_r _ _ (dsqrt_good _ Guu) Gvv ltac:(lia) Fin) as Fv.
  rewrite (dsqrt_sq_exact u Gu Hu Fu), (dsqrt_sq_exact v Gv Hv Fv) in *.
  rewrite <- fabs_dmul in *.
  rewrite (dsub_diag _ Fin). change (fabs (S754_zero false)) with (S754_zero false).
  destruct (dmul_mono_ge_eq epsilon epsilon epsilon (fabs u) _ _ _ _
              ltac:(vm_compute; reflexivity) ltac:(vm_compute; reflexivity)
              good_epsilon good_epsilon
              ltac:(vm_compute; discriminate) ltac:(vm_compute; discriminate)
              good_epsilon Gu (Z.le_refl _) Hu) as [G1 R1].
  assert (G2 : good (dmul epsilon epsilon)) by (vm_compute; split; [reflexivity|discriminate]).
  destruct (dmul_mono_ge_eq (dmul epsilon epsilon) epsilon (dmul epsilon (fabs u)) (fabs v)
              _ _ _ _
              ltac:(vm_compute; reflexivity) ltac:(vm_compute; reflexivity)
              G2 good_epsilon
              ltac:(vm_compute; discriminate) ltac:(vm_compute; discriminate)
              G1 Gv R1 Hv) as [G3 R3].
  apply dlt_rank; [exact I|exact G3|].
  assert (0 < rank (dmul (dmul epsilon epsilon) epsilon)) by (vm_compute; reflexivity).
  cbn [rank]. lia.
Qed.

(** A coordinate difference of two distinct points on an axis-parallel
    line is at least [epsilon]. *)
Lemma axis_far u :
  good (fabs u) -> dlt (dsqrt (dmul u u)) epsilon = false ->
  rank epsilon <= rank (fabs u).
Proof.
  intros G H. destruct (Z.le_gt_cases (rank epsilon) (rank (fabs u))) as [|L]; [assumption|].
  rewrite (axis_close u G) in H by lia. discriminate.
Qed.

Lemma axis_test D E u v :
  norm D = dsqrt (dmul u u) -> norm E = dsqrt (dmul v v) ->
  fabs (dot D E) = fabs (dmul u v) ->
  good (fabs u) -> good (fabs v) ->
  dlt (norm D) epsilon = false -> dlt (norm E) epsilon = false ->
  is_finite (dmul (norm D) (norm E)) = true ->
  dlt (fabs (dsub (fabs (dot D E)) (dmul (norm D) (norm E))))
      (dmul (dmul epsilon (norm D)) (norm E)) = true.
Proof.
  intros -> -> -> Gu Gv Fu Fv Fin.
  apply axis_core; auto using axis_far.
Qed.

(** X14. Between two distinct finite points with the same ordinate (or
    the same abscissa) the computed distance is exactly the magnitude of
    the computed coordinate difference, as long as its square does not
    overflow. *)
Theorem distance_axis_exact (P Q : point) :
  finite_point P = true -> finite_point Q = true ->
  point_eq P Q = false ->
  (y P = y Q -> is_finite (dmul (dsub (x Q) (x P)) (dsub (x Q) (x P))) = true ->
   norm (point_sub Q P) = fabs (dsub (x Q) (x P))) /\
  (x P = x Q -> is_finite (dmul (dsub (y Q) (y P)) (dsub (y Q) (y P))) = true ->
   norm (point_sub Q P) = fabs (dsub (y Q) (y P))).
Proof.
  intros HP HQ NE.
  destruct (finite_point_good _ HP) as (FPx & FPy & GPx & GPy).
  destruct (finite_point_good _ HQ) as (FQx & FQy & GQx & GQy).
  unfold point_eq in NE.
  destruct P as [xp yp], Q as [xq yq]. cbn [x y] in *. unfold point_sub in *. cbn [x y] in *.
  split; intros E Fin; subst.
  - pose proof (dsub_good xq xp GQx GPx FQx FPx) as G.
    rewrite (dsub_diag yq FQy) in *. rewrite (norm_axis_x _ G) in *.
    apply dsqrt_sq_exact; auto using axis_far.
  - pose proof (dsub_good yq yp GQy GPy FQy FPy) as G.
    rewrite (dsub_diag xq FQx) in *. rewrite (norm_axis_y _ G) in *.
    apply dsqrt_sq_exact; auto using axis_far.
Qed.

Lemma distance_axis_exact_witness :
  norm (point_sub (ipoint 3 5) (ipoint 0 5)) = fabs (dsub (x (ipoint 3 5)) (x (ipoint 0 5))).
Proof.
  apply (proj1 (distance_axis_exact (ipoint 0 5) (ipoint 3 5) eq_refl eq_refl eq_refl));
    reflexivity.
Defined.

(** The scaled test of [line::crosses] along one axis. *)
Lemma crosses_same_axis (l : line) (C : point) :
  finite_point (A l) = true -> finite_point (B l) = true -> finite_point C = true ->
  point_eq (A l) (B l) = false ->
  is_finite (dmul (norm (point_sub (B l) (A l))) (norm (point_sub C (B l)))) = true ->
  (y (A l) = y (B l) -> y C = y (B l) -> crosses l C = true) /\
  (x (A l) = x (B l) -> x C = x (B l) -> crosses l C = true).
Proof.
  intros HA HB HC NE Fin.
  destruct (finite_point_good _ HA) as (FAx & FAy & GAx & GAy).
  destruct (finite_point_good _ HB) as (FBx & FBy & GBx & GBy).
  destruct (finite_point_good _ HC) as (FCx & FCy & GCx & GCy).
  unfold crosses.
  destruct (point_eq (B l) C) eqn:NC; [rewrite orb_true_r; split; reflexivity|].
  rewrite orb_false_r.
  destruct (point_eq (A l) C); [split; reflexivity|].
  unfold scaled_test. unfold point_eq in NE, NC.
  destruct l as [[xa ya] [xb yb]], C as [xc yc]. cbn [A B x y] in *.
  unfold point_sub in *. cbn [x y] in *.
  pose proof (dsub_good xb xa GBx GAx FBx FAx) as Gx1.
  pose proof (dsub_good xc xb GCx GBx FCx FBx) as Gx2.
  pose proof (dsub_good yb ya GBy GAy FBy FAy) as Gy1.
  pose proof (dsub_good yc yb GCy GBy FCy FBy) as Gy2.
  split; intros E1 E2; subst.
  - rewrite (dsub_diag yb FBy) in *.
    apply (axis_test _ _ (dsub xb xa) (dsub xc xb));
      auto using norm_axis_x, dot_axis_x.
  - rewrite (dsub_diag xb FBx) in *.
    apply (axis_test _ _ (dsub yb ya) (dsub yc yb));
      auto using norm_axis_y, dot_axis_y.
Qed.

Lemma line_ctor_distinct (P Q : point) (l : line) :
  line_ctor P Q = Returned l -> point_eq P Q = false /\ l = mkline P Q.
Proof.
  unfold line_ctor, point_neq. destruct (point_eq P Q); cbn [negb]; [discriminate|].
  intros E. injection E as <-. split; reflexivity.
Qed.

(** X15. A line constructed from two finite points with the same ordinate
    (or the same abscissa) crosses every finite point with that ordinate
    (abscissa), as long as the product of the two lengths of
    [line::crosses] does not overflow. *)
Theorem crosses_axis_aligned (P Q C : point) (l : line) :
  finite_point P = true -> finite_point Q = true -> finite_point C = true ->
  line_ctor P Q = Returned l ->
  is_finite (dmul (norm (point_sub Q P)) (norm (point_sub C Q))) = true ->
  (y P = y Q -> y C = y Q -> crosses l C = true) /\
  (x P = x Q -> x C = x Q -> crosses l C = true).
Proof.
  intros HP HQ HC V Fin.
  destruct (line_ctor_distinct P Q l V) as [NE ->].
  apply (crosses_same_axis (mkline P Q) C); assumption.
Qed.

Lemma crosses_axis_aligned_witness :
  crosses (mkline (ipoint 0 5) (ipoint 3 5)) (ipoint (-7) 5) = true.
Proof.
  apply (proj1 (crosses_axis_aligned (ipoint 0 5) (ipoint 3 5) (ipoint (-7) 5) _
                  eq_refl eq_refl eq_refl eq_refl eq_refl)); reflexivity.
Defined.

(** X16. Equality of lines is reflexive on lines through finite points,
    and a line equals the line through the same two points in the other
    order, in both directions; [!=] is then false. *)
Theorem line_eq_refl_swap (l : line) :
  finite_point (A l) = true -> finite_point (B l) = true ->
  line_eq l l = true /\ line_eq l (swap l) = true /\ line_eq (swap l) l = true /\
  line_neq l l = false.
Proof.
  intros HA HB.
  destruct (finite_point_good _ HA) as (FAx & FAy & _).
  destruct (finite_point_good _ HB) as (FBx & FBy & _).
  unfold line_neq, line_eq, crosses, swap. cbn [A B].
  rewrite (point_eq_refl (A l) FAx FAy), (point_eq_refl (B l) FBx FBy).
  rewrite !orb_true_r. repeat split; reflexivity.
Qed.

Lemma line_eq_refl_swap_witness :
  line_eq (mkline (ipoint 0 0) (ipoint 1 1)) (mkline (ipoint 0 0) (ipoint 1 1)) = true /\
  line_eq (mkline (ipoint 0 0) (ipoint 1 1)) (swap (mkline (ipoint 0 0) (ipoint 1 1))) = true /\
  line_eq (swap (mkline (ipoint 0 0) (ipoint 1 1))) (mkline (ipoint 0 0) (ipoint 1 1)) = true /\
  line_neq (mkline (ipoint 0 0) (ipoint 1 1)) (mkline (ipoint 0 0) (ipoint 1 1)) = false.
Proof. apply (line_eq_refl_swap (mkline (ipoint 0 0) (ipoint 1 1))); reflexivity. Defined.

(** X17. Two lines constructed on the same horizontal (all four ordinates
    equal) compare equal, as long as the products of lengths formed by
    [line::crosses] do not overflow. *)
Theorem line_eq_same_horizontal (r s : line) :
  finite_point (A r) = true -> finite_point (B r) = true ->
  finite_point (A s) = true -> finite_point (B s) = true ->
  line_ctor (A r) (B r) = Returned r ->
  y (A r) = y (B r) -> y (A s) = y (B r) -> y (B s) = y (B r) ->
  is_finite (dmul (norm (point_sub (B r) (A r))) (norm (point_sub (A s) (B r)))) = true ->
  is_finite (dmul (norm (point_sub (B r) (A r))) (norm (point_sub (B s) (B r)))) = true ->
  line_eq r s = true /\ line_neq r s = false.
Proof.
  intros HA HB HC HD V E1 E2 E3 F1 F2.
  destruct (line_ctor_distinct _ _ _ V) as [NE _].
  unfold line_neq, line_eq.
  rewrite (proj1 (crosses_same_axis r (A s) HA HB HC NE F1) E1 E2).
  rewrite (proj1 (crosses_same_axis r (B s) HA HB HD NE F2) E1 E3).
  split; reflexivity.
Qed.

Lemma line_eq_same_horizontal_witness :
  line_eq (mkline (ipoint 0 5) (ipoint 3 5)) (mkline (ipoint (-7) 5) (ipoint 100 5)) = true /\
  line_neq (mkline (ipoint 0 5) (ipoint 3 5)) (mkline (ipoint (-7) 5) (ipoint 100 5)) = false.
Proof.
  apply (line_eq_same_horizontal (mkline (ipoint 0 5) (ipoint 3 5))
           (mkline (ipoint (-7) 5) (ipoint 100 5))); reflexivity.
Defined.

(** X18. The sentinels of an axis-parallel line through finite points:
    with equal ordinates there is no x intercept; with equal abscissas
    there is no y intercept and the sine is 1. *)
Theorem axis_parallel_sentinels (l : line) :
  finite_point (A l) = true -> finite_point (B l) = true ->
  (y (A l) = y (B l) -> x_intercept l = DBL_MAX) /\
  (x (A l) = x (B l) -> y_intercept l = DBL_MAX /\ sine l = one).
Proof.
  intros HA HB.
  destruct (finite_point_good _ HB) as (FBx & FBy & _).
  unfold x_intercept, y_intercept, sine.
  split; intros ->; rewrite dsub_diag by assumption; [|split]; reflexivity.
Qed.

Lemma axis_parallel_sentinels_witness :
  x_intercept (mkline (ipoint 0 5) (ipoint 3 5)) = DBL_MAX.
Proof.
  apply (proj1 (axis_parallel_sentinels (mkline (ipoint 0 5) (ipoint 3 5)) eq_refl eq_refl));
    reflexivity.
Defined.
